(** * Store-rating platform: the rating ledger, its aggregates and the
      row-level security policies, embedded from the Supabase migration and
      the React client that talks to it.

    The database part follows
    [supabase/migrations/20250927154252_ea90955e-5c70-4917-90f2-8fa06eab18ab.sql]
    statement by statement: tables are lists of records, constraints are
    checked by the statements that insert or update rows, row-level security
    policies are data interpreted by one small engine, and the trigger function
    [update_store_rating] runs after every row change of [ratings].

    The client part follows [useAuth] ([fetchUserRole], [assignDefaultRole]),
    the role assignment of [SignupForm.onSubmit],
    [UserDashboard.submitRating], [StoreOwnerDashboard.fetchRatings] and
    [Index.renderDashboard].  Every request of the client is a statement run
    by the session of the signed-in user, under the policies. *)

From Stdlib Require Import ZArith List Bool Ascii String Lia Permutation.
Import ListNotations.
Open Scope Z_scope.

(** ** Values *)

(** UUIDs are opaque identifiers; only equality is ever used on them. *)
Definition uuid := Z.

(** [TIMESTAMP WITH TIME ZONE]: an instant, ordered. *)
Definition timestamptz := Z.

(** [TEXT]: a sequence of characters, each one a Unicode code point.
    [char_length] counts characters, whatever the number of bytes or of
    UTF-16 code units that encode them. *)
Definition text := list N.

Definition char_length (t : text) : nat := List.length t.

(** The text of a literal made of ASCII characters only: every byte of the
    literal is one character. *)
Definition text_of_ascii (s : string) : text :=
  map N_of_ascii (list_ascii_of_string s).

(** The order of the "C" collation on text: lexicographic, by code point. *)
Fixpoint text_leb (a b : text) : bool :=
  match a, b with
  | [], _ => true
  | _ :: _, [] => false
  | x :: a', y :: b' =>
      if (x <? y)%N then true
      else if (x =? y)%N then text_leb a' b' else false
  end.

(** [CREATE TYPE public.app_role AS ENUM (...)]. *)
Inductive app_role : Type :=
| system_administrator
| normal_user
| store_owner.

Definition app_role_eqb (a b : app_role) : bool :=
  match a, b with
  | system_administrator, system_administrator => true
  | normal_user, normal_user => true
  | store_owner, store_owner => true
  | _, _ => false
  end.

(** The errors a request can come back with: PostgreSQL's SQLSTATE classes
    that the schema can raise, and PostgREST's PGRST116 for [single] and
    [maybeSingle]. *)
Inductive pg_error : Type :=
| unique_violation             (* 23505 *)
| check_violation              (* 23514 *)
| foreign_key_violation        (* 23503 *)
| insufficient_privilege       (* 42501, new row violates row-level security *)
| numeric_value_out_of_range   (* 22003 *)
| PGRST116.                    (* multiple (or no) rows returned *)

Inductive result (A : Type) : Type :=
| Ok (a : A)
| Err (e : pg_error).
Arguments Ok {A} a.
Arguments Err {A} e.

Definition bind {A B : Type} (m : result A) (k : A -> result B) : result B :=
  match m with
  | Ok a => k a
  | Err e => Err e
  end.

Notation "x <- m ;; k" := (bind m (fun x => k))
  (at level 61, m at next level, right associativity).

(** [guard b e]: continue when [b] holds, raise [e] otherwise. *)
Definition guard (b : bool) (e : pg_error) : result unit :=
  if b then Ok tt else Err e.

Fixpoint map_result {A B : Type} (f : A -> result B) (l : list A)
  : result (list B) :=
  match l with
  | [] => Ok []
  | x :: t => y <- f x ;; t' <- map_result f t ;; Ok (y :: t')
  end.

(** An exact [numeric]: a fraction with a positive denominator.  [AVG] over
    integers is the only producer of values that are not already decimal. *)
Record numeric : Type := { num : Z; den : positive }.

(** Rounding of [p / q] (with [0 < q]) to the nearest integer, ties away from
    zero, as PostgreSQL rounds a [numeric] to a smaller scale. *)
Definition round_half_away (p q : Z) : Z :=
  if 0 <=? p then (2 * p + q) / (2 * q)
  else - ((2 * (- p) + q) / (2 * q)).

(** Assignment to a [DECIMAL(2,1)] column: round to one fractional digit and
    fail when two digits of precision do not hold the result.  The stored
    value is kept in tenths, so [35] is 3.5. *)
Definition to_decimal_2_1 (x : numeric) : result Z :=
  let t := round_half_away (10 * num x) (Z.pos (den x)) in
  if Z.abs t <=? 99 then Ok t else Err numeric_value_out_of_range.

(** ** Tables *)

Record user_role_row : Type := {
  ur_id : uuid;
  ur_user_id : uuid;
  ur_role : app_role;
  ur_created_at : timestamptz
}.

(** [average_rating] and [total_ratings] have a default but no [NOT NULL]. *)
Record store_row : Type := {
  st_id : uuid;
  st_user_id : uuid;
  st_name : text;
  st_email : text;
  st_address : text;
  st_average_rating : option Z;      (* DECIMAL(2,1), in tenths *)
  st_total_ratings : option Z;
  st_created_at : timestamptz;
  st_updated_at : timestamptz
}.

Record rating_row : Type := {
  rt_id : uuid;
  rt_user_id : uuid;
  rt_store_id : uuid;
  rt_rating : Z;
  rt_created_at : timestamptz;
  rt_updated_at : timestamptz
}.

(** The database: [auth.users] (only the ids matter, as targets of the
    foreign keys) and the three tables of the migration. *)
Record db : Type := {
  auth_users : list uuid;
  user_roles : list user_role_row;
  stores : list store_row;
  ratings : list rating_row
}.

Definition set_user_roles (d : db) (l : list user_role_row) : db :=
  {| auth_users := auth_users d; user_roles := l;
     stores := stores d; ratings := ratings d |}.

Definition set_stores (d : db) (l : list store_row) : db :=
  {| auth_users := auth_users d; user_roles := user_roles d;
     stores := l; ratings := ratings d |}.

Definition set_ratings (d : db) (l : list rating_row) : db :=
  {| auth_users := auth_users d; user_roles := user_roles d;
     stores := stores d; ratings := l |}.

(** ** Sessions *)

(** A request of the browser client runs as the database role [anon] (no
    signed-in user) or [authenticated] (the JWT carries the user id). *)
Inductive session : Type :=
| anon
| authenticated (uid : uuid).

(** [auth.uid()], NULL for [anon]. *)
Definition auth_uid (s : session) : option uuid :=
  match s with
  | anon => None
  | authenticated u => Some u
  end.

Definition is_authenticated (s : session) : bool :=
  match s with
  | anon => false
  | authenticated _ => true
  end.

(** [a = b] in SQL where [a] may be NULL: NULL is not true. *)
Definition sql_eq (a : option uuid) (b : uuid) : bool :=
  match a with
  | None => false
  | Some x => x =? b
  end.

(** [public.has_role(_user_id, _role)].  It is [SECURITY DEFINER], so it reads
    [user_roles] whole, whatever the caller may see. *)
Definition has_role (d : db) (_user_id : option uuid) (_role : app_role) : bool :=
  existsb (fun r => sql_eq _user_id (ur_user_id r) && app_role_eqb (ur_role r) _role)
          (user_roles d).

(** ** Row-level security *)

Inductive command : Type := SELECT | INSERT | UPDATE | DELETE.

Definition command_eqb (a b : command) : bool :=
  match a, b with
  | SELECT, SELECT | INSERT, INSERT | UPDATE, UPDATE | DELETE, DELETE => true
  | _, _ => false
  end.

Inductive policy_for : Type := FOR_ALL | FOR (c : command).
Inductive policy_to : Type := TO_public | TO_authenticated.

(** A [CREATE POLICY] statement.  All policies of the migration are
    permissive. *)
Record policy (row : Type) : Type := {
  pol_name : string;
  pol_for : policy_for;
  pol_to : policy_to;
  pol_using : option (db -> session -> row -> bool);
  pol_with_check : option (db -> session -> row -> bool)
}.
Arguments pol_name {row} _.
Arguments pol_for {row} _.
Arguments pol_to {row} _.
Arguments pol_using {row} _.
Arguments pol_with_check {row} _.

Definition applies {row : Type} (p : policy row) (c : command) (s : session) : bool :=
  (match pol_for p with
   | FOR_ALL => true
   | FOR c' => command_eqb c c'
   end)
  &&
  (match pol_to p with
   | TO_public => true
   | TO_authenticated => is_authenticated s
   end).

(** The USING side: an existing row is within reach of command [c] when some
    applicable policy has a USING expression that is true of it.  No
    applicable policy means no row (default deny). *)
Definition rls_using {row : Type} (ps : list (policy row)) (c : command)
           (d : db) (s : session) (r : row) : bool :=
  existsb (fun p => applies p c s &&
                    match pol_using p with
                    | Some f => f d s r
                    | None => false
                    end) ps.

(** The WITH CHECK side: a new row is accepted when some applicable policy
    has a WITH CHECK expression true of it; a policy without WITH CHECK
    lends its USING expression. *)
Definition rls_with_check {row : Type} (ps : list (policy row)) (c : command)
           (d : db) (s : session) (r : row) : bool :=
  existsb (fun p => applies p c s &&
                    match pol_with_check p, pol_using p with
                    | Some f, _ => f d s r
                    | None, Some f => f d s r
                    | None, None => false
                    end) ps.

Definition is_admin (d : db) (s : session) : bool :=
  has_role d (auth_uid s) system_administrator.

Definition user_roles_policies : list (policy user_role_row) :=
  [ {| pol_name := "Users can view their own roles";
       pol_for := FOR SELECT; pol_to := TO_public;
       pol_using := Some (fun d s r => sql_eq (auth_uid s) (ur_user_id r));
       pol_with_check := None |};
    {| pol_name := "System admins can manage all roles";
       pol_for := FOR_ALL; pol_to := TO_public;
       pol_using := Some (fun d s r => is_admin d s);
       pol_with_check := None |} ].

Definition stores_policies : list (policy store_row) :=
  [ {| pol_name := "Everyone can view stores";
       pol_for := FOR SELECT; pol_to := TO_authenticated;
       pol_using := Some (fun d s r => true);
       pol_with_check := None |};
    {| pol_name := "Store owners can update their own stores";
       pol_for := FOR UPDATE; pol_to := TO_public;
       pol_using := Some (fun d s r => sql_eq (auth_uid s) (st_user_id r));
       pol_with_check := None |};
    {| pol_name := "System admins can manage all stores";
       pol_for := FOR_ALL; pol_to := TO_public;
       pol_using := Some (fun d s r => is_admin d s);
       pol_with_check := None |} ].

Definition ratings_policies : list (policy rating_row) :=
  [ {| pol_name := "Users can view all ratings";
       pol_for := FOR SELECT; pol_to := TO_authenticated;
       pol_using := Some (fun d s r => true);
       pol_with_check := None |};
    {| pol_name := "Normal users can create ratings";
       pol_for := FOR INSERT; pol_to := TO_public;
       pol_using := None;
       pol_with_check :=
         Some (fun d s r => has_role d (auth_uid s) normal_user
                            && sql_eq (auth_uid s) (rt_user_id r)) |};
    {| pol_name := "Normal users can update their own ratings";
       pol_for := FOR UPDATE; pol_to := TO_public;
       pol_using :=
         Some (fun d s r => has_role d (auth_uid s) normal_user
                            && sql_eq (auth_uid s) (rt_user_id r));
       pol_with_check := None |};
    {| pol_name := "System admins can manage all ratings";
       pol_for := FOR_ALL; pol_to := TO_public;
       pol_using := Some (fun d s r => is_admin d s);
       pol_with_check := None |} ].

(** ** Statements on [stores] *)

(** The two [CHECK] constraints of [stores]. *)
Definition stores_check (r : store_row) : bool :=
  (20 <=? char_length (st_name r))%nat
  && (char_length (st_name r) <=? 60)%nat
  && (char_length (st_address r) <=? 400)%nat.

(** Modelled from the spec: the BEFORE UPDATE trigger
    [update_stores_updated_at] runs [update_updated_at_column], which this
    migration does not create; it overwrites [updated_at] with the current
    time. *)
Definition stores_before_update (now : timestamptz) (r : store_row) : store_row :=
  {| st_id := st_id r; st_user_id := st_user_id r; st_name := st_name r;
     st_email := st_email r; st_address := st_address r;
     st_average_rating := st_average_rating r;
     st_total_ratings := st_total_ratings r;
     st_created_at := st_created_at r; st_updated_at := now |}.

(** One row of [UPDATE public.stores SET ... WHERE ...] run by session [s]:
    a row outside the WHERE clause or outside the session's SELECT and UPDATE
    policies is left alone without an error; a row within reach gets the SET
    list, the BEFORE UPDATE trigger, the policies' check on the new row and
    the table's CHECK constraints.  The SET lists used here never touch [id]
    or [user_id], so the keys need no recheck. *)
Definition update_store_row (s : session) (now : timestamptz) (d : db)
           (where_ : store_row -> bool) (set_ : store_row -> result store_row)
           (r : store_row) : result store_row :=
  if where_ r
     && rls_using stores_policies SELECT d s r
     && rls_using stores_policies UPDATE d s r
  then
    r1 <- set_ r ;;
    let r2 := stores_before_update now r1 in
    _ <- guard (rls_with_check stores_policies UPDATE d s r2) insufficient_privilege ;;
    _ <- guard (stores_check r2) check_violation ;;
    Ok r2
  else Ok r.

Definition update_stores (s : session) (now : timestamptz) (d : db)
           (where_ : store_row -> bool) (set_ : store_row -> result store_row)
  : result db :=
  rows <- map_result (update_store_row s now d where_ set_) (stores d) ;;
  Ok (set_stores d rows).

(** ** The aggregation trigger *)

Definition COALESCE {A : Type} (a b : option A) : option A :=
  match a with
  | Some _ => a
  | None => b
  end.

Definition SUM (l : list Z) : Z := fold_right Z.add 0 l.

Definition COUNT {A : Type} (l : list A) : Z := Z.of_nat (List.length l).

(** [AVG] over no row is NULL. *)
Definition AVG (l : list Z) : option numeric :=
  match l with
  | [] => None
  | _ :: _ => Some {| num := SUM l; den := Pos.of_nat (List.length l) |}
  end.

Definition numeric_zero : numeric := {| num := 0; den := 1 |}.

(** Assignment to an [INTEGER] column. *)
Definition to_integer (z : Z) : result Z :=
  if (-2147483648 <=? z) && (z <=? 2147483647) then Ok z
  else Err numeric_value_out_of_range.

(** The rating rows of store [sid] that session [s] may read. *)
Definition ratings_of_store (s : session) (d : db) (sid : option uuid)
  : list rating_row :=
  filter (fun r => rls_using ratings_policies SELECT d s r
                   && sql_eq sid (rt_store_id r)) (ratings d).

(** [public.update_store_rating()].  The function is not SECURITY DEFINER:
    its [UPDATE public.stores] and its two subqueries run as the session
    whose statement fired the trigger, under that session's policies. *)
Definition update_store_rating (s : session) (now : timestamptz)
           (NEW OLD : option rating_row) (d : db) : result db :=
  let sid := COALESCE (option_map rt_store_id NEW) (option_map rt_store_id OLD) in
  let rs := ratings_of_store s d sid in
  update_stores s now d
    (fun st => sql_eq sid (st_id st))
    (fun st =>
       avg <- to_decimal_2_1
                (match COALESCE (AVG (map rt_rating rs)) (Some numeric_zero) with
                 | Some a => a
                 | None => numeric_zero
                 end) ;;
       cnt <- to_integer (COUNT rs) ;;
       Ok {| st_id := st_id st; st_user_id := st_user_id st;
             st_name := st_name st; st_email := st_email st;
             st_address := st_address st;
             st_average_rating := Some avg;
             st_total_ratings := Some cnt;
             st_created_at := st_created_at st; st_updated_at := now |}).

(** ** Statements on [ratings] *)

(** The columns a client sends. *)
Record rating_payload : Type := {
  pl_user_id : uuid;
  pl_store_id : uuid;
  pl_rating : Z
}.

(** The row an INSERT proposes: [id] from [gen_random_uuid()] (its outcome is
    the argument [g]), both timestamps from [now()]. *)
Definition new_rating (g : uuid) (now : timestamptz) (p : rating_payload)
  : rating_row :=
  {| rt_id := g; rt_user_id := pl_user_id p; rt_store_id := pl_store_id p;
     rt_rating := pl_rating p; rt_created_at := now; rt_updated_at := now |}.

(** [CHECK (rating >= 1 AND rating <= 5)]. *)
Definition ratings_check (r : rating_row) : bool :=
  (1 <=? rt_rating r) && (rt_rating r <=? 5).

Definition same_user_store (u sid : uuid) (r : rating_row) : bool :=
  (rt_user_id r =? u) && (rt_store_id r =? sid).

(** [PRIMARY KEY (id)] and [UNIQUE (user_id, store_id)], against the rows
    [rs] already there. *)
Definition ratings_pkey_free (rs : list rating_row) (id : uuid) : bool :=
  negb (existsb (fun r => rt_id r =? id) rs).

Definition ratings_user_store_free (rs : list rating_row) (u sid : uuid) : bool :=
  negb (existsb (same_user_store u sid) rs).

(** The two foreign keys. *)
Definition ratings_fkeys (d : db) (r : rating_row) : bool :=
  existsb (Z.eqb (rt_user_id r)) (auth_users d)
  && existsb (fun st => st_id st =? rt_store_id r) (stores d).

(** Storing a proposed row that met no arbiter conflict: the unique indexes,
    the foreign keys, then the AFTER INSERT trigger. *)
Definition insert_rating_row (s : session) (now : timestamptz) (d : db)
           (row : rating_row) : result db :=
  _ <- guard (ratings_pkey_free (ratings d) (rt_id row)) unique_violation ;;
  _ <- guard (ratings_user_store_free (ratings d) (rt_user_id row) (rt_store_id row))
             unique_violation ;;
  _ <- guard (ratings_fkeys d row) foreign_key_violation ;;
  update_store_rating s now (Some row) None
                      (set_ratings d (ratings d ++ [row])).

(** [INSERT INTO public.ratings (user_id, store_id, rating) VALUES (...)]. *)
Definition insert_rating (s : session) (g : uuid) (now : timestamptz) (d : db)
           (p : rating_payload) : result db :=
  _ <- to_integer (pl_rating p) ;;
  let row := new_rating g now p in
  _ <- guard (rls_with_check ratings_policies INSERT d s row) insufficient_privilege ;;
  _ <- guard (ratings_check row) check_violation ;;
  insert_rating_row s now d row.

(** Modelled from the spec: the BEFORE UPDATE trigger
    [update_ratings_updated_at] runs [update_updated_at_column], which this
    migration does not create; it overwrites [updated_at] with the current
    time. *)
Definition ratings_before_update (now : timestamptz) (r : rating_row) : rating_row :=
  {| rt_id := rt_id r; rt_user_id := rt_user_id r; rt_store_id := rt_store_id r;
     rt_rating := rt_rating r; rt_created_at := rt_created_at r;
     rt_updated_at := now |}.

(** Overwriting the existing row [old] with the payload's columns: the BEFORE
    UPDATE trigger, the policies' check on the new row, the constraints, then
    the AFTER UPDATE trigger. *)
Definition update_rating_row (s : session) (now : timestamptz) (d : db)
           (old : rating_row) (p : rating_payload) : result db :=
  let new := ratings_before_update now
               {| rt_id := rt_id old; rt_user_id := pl_user_id p;
                  rt_store_id := pl_store_id p; rt_rating := pl_rating p;
                  rt_created_at := rt_created_at old;
                  rt_updated_at := rt_updated_at old |} in
  _ <- guard (rls_with_check ratings_policies UPDATE d s new) insufficient_privilege ;;
  _ <- guard (ratings_check new) check_violation ;;
  _ <- guard (ratings_user_store_free
                (filter (fun r => negb (rt_id r =? rt_id old)) (ratings d))
                (rt_user_id new) (rt_store_id new)) unique_violation ;;
  _ <- guard (ratings_fkeys d new) foreign_key_violation ;;
  update_store_rating s now (Some new) (Some old)
    (set_ratings d (map (fun r => if rt_id r =? rt_id old then new else r)
                        (ratings d))).

(** [UPDATE public.ratings SET user_id = .., store_id = .., rating = ..
     WHERE id = rid]. *)
Definition update_rating (s : session) (now : timestamptz) (d : db)
           (rid : uuid) (p : rating_payload) : result db :=
  match find (fun r => rt_id r =? rid) (ratings d) with
  | Some old =>
      if rls_using ratings_policies SELECT d s old
         && rls_using ratings_policies UPDATE d s old
      then _ <- to_integer (pl_rating p) ;; update_rating_row s now d old p
      else Ok d
  | None => Ok d
  end.

(** [DELETE FROM public.ratings WHERE id = rid]. *)
Definition delete_rating (s : session) (now : timestamptz) (d : db)
           (rid : uuid) : result db :=
  match find (fun r => rt_id r =? rid) (ratings d) with
  | Some old =>
      if rls_using ratings_policies SELECT d s old
         && rls_using ratings_policies DELETE d s old
      then update_store_rating s now None (Some old)
             (set_ratings d (filter (fun r => negb (rt_id r =? rid)) (ratings d)))
      else Ok d
  | None => Ok d
  end.

(** The constraint an upsert arbitrates on. *)
Inductive conflict_target : Type :=
| ratings_pkey
| ratings_user_id_store_id_key.

Definition arbiter (t : conflict_target) (row : rating_row)
           (rs : list rating_row) : option rating_row :=
  match t with
  | ratings_pkey => find (fun r => rt_id r =? rt_id row) rs
  | ratings_user_id_store_id_key =>
      find (same_user_store (rt_user_id row) (rt_store_id row)) rs
  end.

(** [supabase.from('ratings').upsert(values, { onConflict })], which
    PostgREST runs as [INSERT ... ON CONFLICT (target) DO UPDATE SET] over the
    payload's columns.  Without [onConflict] the target is the primary key.
    The proposed row passes the INSERT policies and the CHECK constraint
    first; a conflict on the target turns the statement into an update of the
    conflicting row, which must be within the UPDATE policies; any other
    unique index still raises. *)
Definition upsert_rating (s : session) (g : uuid) (now : timestamptz) (d : db)
           (p : rating_payload) (onConflict : option conflict_target)
  : result db :=
  _ <- to_integer (pl_rating p) ;;
  let row := new_rating g now p in
  _ <- guard (rls_with_check ratings_policies INSERT d s row) insufficient_privilege ;;
  _ <- guard (ratings_check row) check_violation ;;
  match arbiter (match onConflict with
                 | Some t => t
                 | None => ratings_pkey
                 end) row (ratings d) with
  | Some old =>
      _ <- guard (rls_using ratings_policies SELECT d s old
                  && rls_using ratings_policies UPDATE d s old)
                 insufficient_privilege ;;
      update_rating_row s now d old p
  | None => insert_rating_row s now d row
  end.

(** [supabase.from('ratings').select(...).eq('store_id', sid)
      .order('created_at', { ascending: false })]. *)
Fixpoint insert_desc (r : rating_row) (l : list rating_row) : list rating_row :=
  match l with
  | [] => [r]
  | x :: t => if rt_created_at x <? rt_created_at r then r :: x :: t
              else x :: insert_desc r t
  end.

Definition order_created_at_desc (l : list rating_row) : list rating_row :=
  fold_right insert_desc [] l.

Definition select_ratings_of_store (s : session) (d : db) (sid : uuid)
  : list rating_row :=
  order_created_at_desc (ratings_of_store s d (Some sid)).

(** [UPDATE public.stores SET <patch> WHERE id = sid], the statement the
    policies "Store owners can update their own stores" and "System admins
    can manage all stores" admit.  A patch names the profile columns and the
    two aggregate columns; an absent field leaves its column alone. *)
Record store_patch : Type := {
  pt_name : option text;
  pt_email : option text;
  pt_address : option text;
  pt_average_rating : option (option numeric);
  pt_total_ratings : option (option Z)
}.

Definition patched {A : Type} (new : option A) (old : A) : A :=
  match new with
  | Some v => v
  | None => old
  end.

Definition patch_store (p : store_patch) (st : store_row) : result store_row :=
  avg <- match pt_average_rating p with
         | None => Ok (st_average_rating st)
         | Some None => Ok None
         | Some (Some x) => a <- to_decimal_2_1 x ;; Ok (Some a)
         end ;;
  cnt <- match pt_total_ratings p with
         | None => Ok (st_total_ratings st)
         | Some None => Ok None
         | Some (Some z) => c <- to_integer z ;; Ok (Some c)
         end ;;
  Ok {| st_id := st_id st; st_user_id := st_user_id st;
        st_name := patched (pt_name p) (st_name st);
        st_email := patched (pt_email p) (st_email st);
        st_address := patched (pt_address p) (st_address st);
        st_average_rating := avg;
        st_total_ratings := cnt;
        st_created_at := st_created_at st;
        st_updated_at := st_updated_at st |}.

Definition update_store (s : session) (now : timestamptz) (d : db)
           (sid : uuid) (p : store_patch) : result db :=
  update_stores s now d (fun st => st_id st =? sid) (patch_store p).

(** [supabase.from('stores').select(...)] with a filter. *)
Definition select_stores (s : session) (d : db) (where_ : store_row -> bool)
  : list store_row :=
  filter (fun r => rls_using stores_policies SELECT d s r && where_ r) (stores d).

(** ** Statements on [user_roles] *)

Definition select_user_roles (s : session) (d : db)
           (where_ : user_role_row -> bool) : list user_role_row :=
  filter (fun r => rls_using user_roles_policies SELECT d s r && where_ r)
         (user_roles d).

Definition same_user_role (u : uuid) (ro : app_role) (r : user_role_row) : bool :=
  (ur_user_id r =? u) && app_role_eqb (ur_role r) ro.

(** [supabase.from('user_roles').insert({ user_id, role })]: the INSERT
    policies, [PRIMARY KEY (id)], [UNIQUE (user_id, role)] and the foreign key
    to [auth.users]. *)
Definition insert_user_role (s : session) (g : uuid) (now : timestamptz)
           (d : db) (user_id : uuid) (role : app_role) : result db :=
  let row := {| ur_id := g; ur_user_id := user_id; ur_role := role;
                ur_created_at := now |} in
  _ <- guard (rls_with_check user_roles_policies INSERT d s row)
             insufficient_privilege ;;
  _ <- guard (negb (existsb (fun r => ur_id r =? g) (user_roles d)))
             unique_violation ;;
  _ <- guard (negb (existsb (same_user_role user_id role) (user_roles d)))
             unique_violation ;;
  _ <- guard (existsb (Z.eqb user_id) (auth_users d)) foreign_key_violation ;;
  Ok (set_user_roles d (user_roles d ++ [row])).

(** ** The client *)

(** [.maybeSingle()]: no row is no data, one row is that row, more is an
    error. *)
Definition maybeSingle {A : Type} (rows : list A) : result (option A) :=
  match rows with
  | [] => Ok None
  | [x] => Ok (Some x)
  | _ :: _ :: _ => Err PGRST116
  end.

(** [.single()]: exactly one row, an error otherwise. *)
Definition single {A : Type} (rows : list A) : result A :=
  match rows with
  | [x] => Ok x
  | _ => Err PGRST116
  end.

(** [select('*', { count: 'exact', head: true })] on [user_roles]: the number
    of rows the session may read. *)
Definition count_user_roles (s : session) (d : db) : Z :=
  COUNT (select_user_roles s d (fun _ => true)).

(** [count === 0 ? 'system_administrator' : 'normal_user']. *)
Definition default_role (count : Z) : app_role :=
  if count =? 0 then system_administrator else normal_user.

(** [useAuth.assignDefaultRole]: a count request, then an insert request.
    The result is the role returned to the caller ([null] on error) and the
    database afterwards. *)
Definition assignDefaultRole (s : session) (g : uuid) (now : timestamptz)
           (d : db) (userId : uuid) : option app_role * db :=
  let count := count_user_roles s d in
  let role := default_role count in
  match insert_user_role s g now d userId role with
  | Err _ => (None, d)
  | Ok d' => (Some role, d')
  end.

(** [SignupForm.onSubmit], the part after [signUp] and the profile insert:
    the same two requests.  An error of the insert is logged and otherwise
    ignored, so the result is the role the toast announces and the database
    afterwards. *)
Definition SignupForm_onSubmit (s : session) (g : uuid) (now : timestamptz)
           (d : db) (userId : uuid) : app_role * db :=
  let count := count_user_roles s d in
  let role := default_role count in
  match insert_user_role s g now d userId role with
  | Err _ => (role, d)
  | Ok d' => (role, d')
  end.

(** [useAuth.fetchUserRole]: the value [userRole] is set to, and the database
    afterwards. *)
Definition fetchUserRole (s : session) (g : uuid) (now : timestamptz)
           (d : db) (userId : uuid) : option app_role * db :=
  match maybeSingle (select_user_roles s d (fun r => ur_user_id r =? userId)) with
  | Err _ => (None, d)
  | Ok None => assignDefaultRole s g now d userId
  | Ok (Some data) => (Some (ur_role data), d)
  end.

(** [Index.renderDashboard]. *)
Inductive dashboard : Type :=
| AdminDashboard
| UserDashboard
| StoreOwnerDashboard
| RoleAssignmentPending.

Definition renderDashboard (userRole : option app_role) : dashboard :=
  match userRole with
  | Some system_administrator => AdminDashboard
  | Some normal_user => UserDashboard
  | Some store_owner => StoreOwnerDashboard
  | None => RoleAssignmentPending
  end.

(** What [submitRating] shows: nothing when it returns at its guard, the
    success toast, or the error toast of the [catch] branch. *)
Inductive toast : Type :=
| toast_success
| toast_error (e : pg_error).

(** [UserDashboard.submitRating].  [user] is the signed-in user of the
    session, [selectedStore] the id of the store in the dialog and
    [selectedRating] the number of the star clicked, [0] while none is. *)
Definition submitRating (s : session) (g : uuid) (now : timestamptz) (d : db)
           (selectedStore : option uuid) (selectedRating : Z)
  : option toast * db :=
  match selectedStore, auth_uid s with
  | Some store_id, Some user_id =>
      if selectedRating =? 0 then (None, d)
      else
        match upsert_rating s g now d
                {| pl_user_id := user_id; pl_store_id := store_id;
                   pl_rating := selectedRating |} None with
        | Err e => (Some (toast_error e), d)
        | Ok d' => (Some toast_success, d')
        end
  | _, _ => (None, d)
  end.

(** [StoreOwnerDashboard.fetchRatings], up to the join with [profiles]: the
    rating rows handed to [setRatings], or nothing when the user has not
    exactly one store. *)
Definition fetchRatings (s : session) (d : db) : option (list rating_row) :=
  match auth_uid s with
  | None => None
  | Some u =>
      match single (select_stores s d (fun st => st_user_id st =? u)) with
      | Err _ => None
      | Ok storeData => Some (select_ratings_of_store s d (st_id storeData))
      end
  end.

(** ** Concurrent role bootstraps

    [assignDefaultRole] awaits two requests.  Between them other clients'
    requests can reach the database, so a run of several clients is an
    interleaving of their requests. *)
Inductive pc : Type :=
| at_count
| at_insert (role : app_role)
| returned (r : option app_role).

Record client : Type := { cl_user : uuid; cl_pc : pc }.

(** One request of client [c]. *)
Definition client_step (g : uuid) (now : timestamptz) (c : client) (d : db)
  : client * db :=
  let s := authenticated (cl_user c) in
  match cl_pc c with
  | at_count =>
      ({| cl_user := cl_user c;
          cl_pc := at_insert (default_role (count_user_roles s d)) |}, d)
  | at_insert role =>
      match insert_user_role s g now d (cl_user c) role with
      | Err _ => ({| cl_user := cl_user c; cl_pc := returned None |}, d)
      | Ok d' => ({| cl_user := cl_user c; cl_pc := returned (Some role) |}, d')
      end
  | returned _ => (c, d)
  end.

(** A schedule names, request by request, the client that moves, with the
    uuid and the time the database draws for it. *)
Record slot : Type := { sl_client : nat; sl_uuid : uuid; sl_now : timestamptz }.

Fixpoint update_nth {A : Type} (n : nat) (f : A -> A) (l : list A) : list A :=
  match l, n with
  | [], _ => []
  | x :: t, O => f x :: t
  | x :: t, S n' => x :: update_nth n' f t
  end.

Definition run_slot (sl : slot) (st : list client * db) : list client * db :=
  match nth_error (fst st) (sl_client sl) with
  | None => st
  | Some c =>
      let (c', d') := client_step (sl_uuid sl) (sl_now sl) c (snd st) in
      (update_nth (sl_client sl) (fun _ => c') (fst st), d')
  end.

Definition run (schedule : list slot) (st : list client * db) : list client * db :=
  fold_left (fun st sl => run_slot sl st) schedule st.

(** Number of administrator rows. *)
Definition count_admins (d : db) : Z :=
  COUNT (filter (fun r => app_role_eqb (ur_role r) system_administrator)
                (user_roles d)).

(** ** More of the client and of the statements it sends *)

(** The columns [AdminDashboard.createStore] sends. *)
Record store_payload : Type := {
  sp_user_id : uuid;
  sp_name : text;
  sp_email : text;
  sp_address : text
}.

(** The row an INSERT into [stores] proposes: [id] from [gen_random_uuid()],
    the aggregates from their defaults 0.0 and 0, both timestamps from
    [now()]. *)
Definition new_store (g : uuid) (now : timestamptz) (p : store_payload)
  : store_row :=
  {| st_id := g; st_user_id := sp_user_id p; st_name := sp_name p;
     st_email := sp_email p; st_address := sp_address p;
     st_average_rating := Some 0; st_total_ratings := Some 0;
     st_created_at := now; st_updated_at := now |}.

(** [supabase.from('stores').insert({ user_id, name, email, address })]: the
    INSERT policies, the CHECK constraints, the primary key and the foreign
    key to [auth.users]. *)
Definition insert_store (s : session) (g : uuid) (now : timestamptz) (d : db)
           (p : store_payload) : result db :=
  let row := new_store g now p in
  _ <- guard (rls_with_check stores_policies INSERT d s row)
             insufficient_privilege ;;
  _ <- guard (stores_check row) check_violation ;;
  _ <- guard (negb (existsb (fun st => st_id st =? g) (stores d)))
             unique_violation ;;
  _ <- guard (existsb (Z.eqb (sp_user_id p)) (auth_users d))
             foreign_key_violation ;;
  Ok (set_stores d (stores d ++ [row])).

(** [AdminDashboard.createStore], after the form's validation: the toast
    shown and the database afterwards. *)
Definition createStore (s : session) (g : uuid) (now : timestamptz) (d : db)
           (data : store_payload) : toast * db :=
  match insert_store s g now d data with
  | Err e => (toast_error e, d)
  | Ok d' => (toast_success, d')
  end.

(** [StoreOwnerDashboard.fetchStoreInfo]: the row [setStore] is called with,
    or nothing when the request comes back with PGRST116 (or nobody is signed
    in). *)
Definition fetchStoreInfo (s : session) (d : db) : option store_row :=
  match auth_uid s with
  | None => None
  | Some u =>
      match single (select_stores s d (fun st => st_user_id st =? u)) with
      | Err _ => None
      | Ok data => Some data
      end
  end.

(** A JavaScript object used as a map from store ids to numbers:
    [acc[k] = v] puts a binding in front, a lookup takes the first one. *)
Definition js_object : Type := list (uuid * Z).

Definition js_set (acc : js_object) (k : uuid) (v : Z) : js_object :=
  (k, v) :: acc.

Definition js_get (acc : js_object) (k : uuid) : option Z :=
  option_map snd (find (fun kv => fst kv =? k) acc).

(** [ratingsData.reduce((acc, rating) => { acc[rating.store_id] =
    rating.rating; return acc; }, {})]. *)
Definition ratingsMap (ratingsData : list rating_row) : js_object :=
  fold_left (fun acc rating => js_set acc (rt_store_id rating) (rt_rating rating))
            ratingsData [].

(** A store as [UserDashboard] keeps it: the row and [user_rating], which is
    [undefined] when the map has no entry. *)
Record store_with_rating : Type := {
  swr_store : store_row;
  user_rating : option Z
}.

Definition storesWithRatings (storesData : list store_row)
           (ratingsData : list rating_row) : list store_with_rating :=
  map (fun store => {| swr_store := store;
                       user_rating := js_get (ratingsMap ratingsData) (st_id store) |})
      storesData.

(** [.order('name')]: ascending in the order [name_le] the database's
    collation puts on text. *)
Fixpoint insert_by_name (name_le : text -> text -> bool) (r : store_row)
         (l : list store_row) : list store_row :=
  match l with
  | [] => [r]
  | x :: t => if name_le (st_name r) (st_name x) then r :: x :: t
              else x :: insert_by_name name_le r t
  end.

Definition order_by_name (name_le : text -> text -> bool)
           (l : list store_row) : list store_row :=
  fold_right (insert_by_name name_le) [] l.

(** [supabase.from('ratings').select('store_id, rating').eq('user_id', u)]. *)
Definition select_ratings_of_user (s : session) (d : db) (u : uuid)
  : list rating_row :=
  filter (fun r => rls_using ratings_policies SELECT d s r
                   && (rt_user_id r =? u)) (ratings d).

(** [UserDashboard.fetchStores]: the list [setStores] is called with, or
    nothing when nobody is signed in. *)
Definition fetchStores (name_le : text -> text -> bool) (s : session)
           (d : db) : option (list store_with_rating) :=
  match auth_uid s with
  | None => None
  | Some u =>
      let storesData := order_by_name name_le (select_stores s d (fun _ => true)) in
      let ratingsData := select_ratings_of_user s d u in
      Some (storesWithRatings storesData ratingsData)
  end.

(** A star as [renderStars] draws it: whether it is filled, whether it shows
    the pointer cursor, and what a click on it does, which is the value
    [selectedRating] is set to, or nothing. *)
Record star : Type := {
  filled : bool;
  pointer : bool;
  on_click : option Z
}.

(** [const [selectedRating, setSelectedRating] = useState<number>(0)]: the
    setter makes its argument the next [selectedRating]. *)
Definition setSelectedRating (rating : Z) : Z := rating.

(** [UserDashboard.renderStars(rating, interactive = false, onStarClick?)]:
    [Array.from({ length: 5 }, (_, index) => ...)], every star with
    [onClick={() => interactive && onStarClick?.(index + 1)}]. *)
Definition renderStars (rating : Z) (interactive : bool)
           (onStarClick : option (Z -> Z)) : list star :=
  map (fun index =>
         {| filled := index <? rating;
            pointer := interactive;
            on_click := if interactive
                        then option_map (fun f => f (index + 1)) onStarClick
                        else None |})
      [0; 1; 2; 3; 4].

(** The stars of the rating dialog:
    [renderStars(selectedRating || selectedStore?.user_rating || 0, true,
    setSelectedRating)]. *)
Definition dialog_stars (shown : Z) : list star :=
  renderStars shown true (Some setSelectedRating).

(** [Math.round(store.average_rating || 0)] on a [DECIMAL(2,1)] value kept in
    tenths: the nearest integer, a half going up.  A value with one
    fractional digit is a half exactly when its double is, so the rounding
    of the double is the rounding of the decimal. *)
Definition Math_round_tenths (average_rating : option Z) : Z :=
  match average_rating with
  | Some t => (t + 5) / 10
  | None => 0
  end.

(** The stars of the "Overall Rating" line:
    [renderStars(Math.round(store.average_rating || 0))], with both optional
    parameters left out. *)
Definition overall_stars (average_rating : option Z) : list star :=
  renderStars (Math_round_tenths average_rating) false None.

(** [StoreOwnerDashboard] has a [renderStars] of its own, with one parameter
    and no [onClick]. *)
Module StoreOwnerDashboard.

Definition renderStars (rating : Z) : list star :=
  map (fun index =>
         {| filled := index <? rating; pointer := false; on_click := None |})
      [0; 1; 2; 3; 4].

Definition overall_stars (average_rating : option Z) : list star :=
  renderStars (Math_round_tenths average_rating).

End StoreOwnerDashboard.

(** A JavaScript string: a sequence of UTF-16 code units.  [.length], zod's
    [min] and [max], and a regular expression without the [u] flag all count
    and match code units. *)
Definition js_string := list N.

(** The JavaScript string of a literal made of ASCII characters only. *)
Definition js_of_ascii (s : string) : js_string :=
  map N_of_ascii (list_ascii_of_string s).

(** [passwordSchema], the same in the three dashboards and, as a field, in the
    sign-up and add-user forms: [min(8)], [max(16)] and the regular expression
    [/^(?=.*[A-Z])(?=.*[!@#$%^&*])/].  A lookahead [(?=.*[c])] at the start
    holds when a code unit of the class comes after code units that [.]
    matches, that is, after no line terminator: line feed, carriage return,
    U+2028 or U+2029. *)
Definition is_upper (c : N) : bool :=
  ((65 <=? c) && (c <=? 90))%N.

Definition is_special (c : N) : bool :=
  existsb (N.eqb c) (js_of_ascii "!@#$%^&*").

Definition is_line_terminator (c : N) : bool :=
  ((c =? 10) || (c =? 13) || (c =? 8232) || (c =? 8233))%N.

Fixpoint lookahead (class : N -> bool) (s : js_string) : bool :=
  match s with
  | [] => false
  | c :: t => class c || (negb (is_line_terminator c) && lookahead class t)
  end.

Definition passwordSchema (password : js_string) : bool :=
  (8 <=? List.length password)%nat
  && (List.length password <=? 16)%nat
  && (lookahead is_upper password && lookahead is_special password).

(** ** Invariants of the tables *)

(** [PRIMARY KEY (id)] and [UNIQUE (user_id, store_id)] on [ratings]. *)
Definition rating_key (r : rating_row) : uuid * uuid :=
  (rt_user_id r, rt_store_id r).

Definition ratings_wf (rs : list rating_row) : Prop :=
  NoDup (map rt_id rs) /\ NoDup (map rating_key rs).

(** [UNIQUE (user_id, role)] on [user_roles]. *)
Definition user_roles_wf (l : list user_role_row) : Prop :=
  NoDup (map ur_id l) /\ NoDup (map (fun r => (ur_user_id r, ur_role r)) l).

(** Newest first. *)
Inductive sorted_desc : list rating_row -> Prop :=
| sorted_desc_nil : sorted_desc []
| sorted_desc_one (r : rating_row) : sorted_desc [r]
| sorted_desc_cons (r x : rating_row) (t : list rating_row) :
    rt_created_at x <= rt_created_at r ->
    sorted_desc (x :: t) -> sorted_desc (r :: x :: t).

(** The rows of store [sid], whatever the reader: what the aggregates of
    [sid] are meant to summarise. *)
Definition ledger (d : db) (sid : uuid) : list rating_row :=
  filter (fun r => rt_store_id r =? sid) (ratings d).

(** Number of rating rows of user [u] for store [sid]. *)
Definition count_user_store (d : db) (u sid : uuid) : Z :=
  COUNT (filter (same_user_store u sid) (ratings d)).

(** Number of role rows of user [u]. *)
Definition count_roles_of (d : db) (u : uuid) : Z :=
  COUNT (filter (fun r => ur_user_id r =? u) (user_roles d)).

(** What the aggregates of a store with rating rows [rs] are meant to be:
    the number of rows, and the mean of the values rounded to one fractional
    digit (in tenths), 0.0 without rows. *)
Definition spec_total_ratings (rs : list rating_row) : Z :=
  Z.of_nat (List.length rs).

Definition spec_average_rating (rs : list rating_row) : Z :=
  match rs with
  | [] => 0
  | _ :: _ => round_half_away (10 * SUM (map rt_rating rs))
                              (Z.of_nat (List.length rs))
  end.

(** The aggregates of store [sid] agree with its ledger. *)
Definition aggregates_current (d : db) (sid : uuid) : Prop :=
  forall st, In st (stores d) -> st_id st = sid ->
    st_total_ratings st = Some (spec_total_ratings (ledger d sid))
    /\ st_average_rating st = Some (spec_average_rating (ledger d sid)).

(** Who the policies of [ratings] let write a row of user [user_id]. *)
Definition may_write_rating (d : db) (s : session) (user_id : uuid) : bool :=
  (has_role d (auth_uid s) normal_user && sql_eq (auth_uid s) user_id)
  || is_admin d s.

(** Who the policies of [stores] let update the row [st]. *)
Definition may_update_store (d : db) (s : session) (st : store_row) : bool :=
  sql_eq (auth_uid s) (st_user_id st) || is_admin d s.

(** The constraints of [ratings] as a property of the database: the two
    unique indexes, the CHECK on [rating] and the two foreign keys. *)
Definition ratings_constraints (d : db) : Prop :=
  ratings_wf (ratings d)
  /\ Forall (fun r => ratings_check r = true) (ratings d)
  /\ Forall (fun r => ratings_fkeys d r = true) (ratings d).

(** A client that is in, or has gone through, the bootstrap of a user
    without a role and has not been given one. *)
Definition without_role (d : db) (c : client) : Prop :=
  count_roles_of d (cl_user c) = 0
  /\ (cl_pc c = at_count \/ cl_pc c = at_insert system_administrator
      \/ cl_pc c = returned None).

(** ** A small database

    Users 1 to 4 exist; 1 is the administrator, 2 owns store 10, 3 is a
    normal user and 4 has signed in but has no role yet. *)
Definition store10 : store_row :=
  {| st_id := 10; st_user_id := 2; st_name := text_of_ascii "Corner Grocery Store 24h";
     st_email := text_of_ascii "shop@example.org"; st_address := text_of_ascii "1 Main Street";
     st_average_rating := Some 0; st_total_ratings := Some 0;
     st_created_at := 100; st_updated_at := 100 |}.

Definition role_rows : list user_role_row :=
  [ {| ur_id := 501; ur_user_id := 1; ur_role := system_administrator;
       ur_created_at := 1 |};
    {| ur_id := 502; ur_user_id := 2; ur_role := store_owner;
       ur_created_at := 2 |};
    {| ur_id := 503; ur_user_id := 3; ur_role := normal_user;
       ur_created_at := 3 |} ].

Definition db0 : db :=
  {| auth_users := [1; 2; 3; 4]; user_roles := role_rows;
     stores := [store10]; ratings := [] |}.

(** The same platform before anybody has a role. *)
Definition db_fresh : db :=
  {| auth_users := [1; 2; 3; 4]; user_roles := [];
     stores := [store10]; ratings := [] |}.

(** User 3's rating of 4 stars for store 10, as the first submission
    stores it. *)
Definition rating900 : rating_row :=
  {| rt_id := 900; rt_user_id := 3; rt_store_id := 10; rt_rating := 4;
     rt_created_at := 200; rt_updated_at := 200 |}.

Definition db1 : db := set_ratings db0 [rating900].

(** User 3 after an administrator gave them a second role. *)
Definition db_two_roles : db :=
  set_user_roles db0
    (role_rows ++ [ {| ur_id := 504; ur_user_id := 3; ur_role := store_owner;
                       ur_created_at := 4 |} ]).

(** A second store of the same owner, and the platform with both stores
    after the administrator entered user 3's rating of 4 stars for store 10. *)
Definition store11 : store_row :=
  {| st_id := 11; st_user_id := 2; st_name := text_of_ascii "Harbour Bakery and Cafe";
     st_email := text_of_ascii "bakery@example.org"; st_address := text_of_ascii "2 Quay Road";
     st_average_rating := Some 0; st_total_ratings := Some 0;
     st_created_at := 101; st_updated_at := 101 |}.

Definition db_two_stores : db :=
  {| auth_users := [1; 2; 3; 4]; user_roles := role_rows;
     stores := [ {| st_id := 10; st_user_id := 2;
                    st_name := text_of_ascii "Corner Grocery Store 24h";
                    st_email := text_of_ascii "shop@example.org";
                    st_address := text_of_ascii "1 Main Street";
                    st_average_rating := Some 40; st_total_ratings := Some 1;
                    st_created_at := 100; st_updated_at := 200 |};
                 store11 ];
     ratings := [rating900] |}.

(** Two first-time logins whose requests alternate. *)
Definition two_clients : list client :=
  [ {| cl_user := 3; cl_pc := at_count |};
    {| cl_user := 4; cl_pc := at_count |} ].

Definition alternating : list slot :=
  [ {| sl_client := 0%nat; sl_uuid := 900; sl_now := 1 |};
    {| sl_client := 1%nat; sl_uuid := 901; sl_now := 2 |};
    {| sl_client := 0%nat; sl_uuid := 902; sl_now := 3 |};
    {| sl_client := 1%nat; sl_uuid := 903; sl_now := 4 |} ].


(** User 4's rating of 2 stars for store 10, as an administrator entered it,
    next to no other rating. *)
Definition rating901 : rating_row :=
  {| rt_id := 901; rt_user_id := 4; rt_store_id := 10; rt_rating := 2;
     rt_created_at := 250; rt_updated_at := 250 |}.

Definition db_rating_of_4 : db := set_ratings db0 [rating901].

(** A patch that writes only the two aggregate columns. *)
Definition aggregates_only (x : numeric) (z : Z) : store_patch :=
  {| pt_name := None; pt_email := None; pt_address := None;
     pt_average_rating := Some (Some x);
     pt_total_ratings := Some (Some z) |}.

(** The row [st] after an update at [now] that stored [a] and [c] in its two
    aggregate columns. *)
Definition with_aggregates (now : timestamptz) (a c : Z) (st : store_row)
  : store_row :=
  {| st_id := st_id st; st_user_id := st_user_id st; st_name := st_name st;
     st_email := st_email st; st_address := st_address st;
     st_average_rating := Some a; st_total_ratings := Some c;
     st_created_at := st_created_at st; st_updated_at := now |}.

(** A patch that writes only the two aggregate columns: 5.0 and 1000. *)
Definition aggregates_patch : store_patch :=
  {| pt_name := None; pt_email := None; pt_address := None;
     pt_average_rating := Some (Some {| num := 5; den := 1 |});
     pt_total_ratings := Some (Some 1000) |}.

(** * Properties *)

(** ** Equality of roles *)

Lemma app_role_eqb_eq (a b : app_role) : app_role_eqb a b = true <-> a = b.
Proof. destruct a, b; simpl; split; intros H; try reflexivity; discriminate. Qed.

Lemma app_role_eqb_refl (a : app_role) : app_role_eqb a a = true.
Proof. destruct a; reflexivity. Qed.

(** ** Lists and results *)

Lemma filter_none_in {A : Type} (f : A -> bool) (l : list A) :
  (forall x, In x l -> f x = false) -> filter f l = [].
Proof.
  induction l as [|x t IH]; simpl; intros H; [reflexivity|].
  rewrite (H x (or_introl eq_refl)). apply IH. intros y Hy. apply H. now right.
Qed.

Lemma NoDup_snoc {A : Type} (l : list A) (x : A) :
  NoDup l -> ~ In x l -> NoDup (l ++ [x]).
Proof.
  intros Hl Hx. apply NoDup_app; [exact Hl | repeat constructor; intros [] |].
  intros a Ha [Hax|[]]. subst. exact (Hx Ha).
Qed.

Lemma existsb_false_not_in {A B : Type} (f : A -> bool) (k : A -> B)
      (l : list A) (b : B) :
  (forall x, k x = b -> f x = true) ->
  existsb f l = false -> ~ In b (map k l).
Proof.
  intros Hk Hf Hin. apply in_map_iff in Hin. destruct Hin as [x [Hx Hin]].
  assert (existsb f l = true) by (apply existsb_exists; eauto).
  congruence.
Qed.

Lemma find_none_existsb {A : Type} (f : A -> bool) (l : list A) :
  existsb f l = false -> find f l = None.
Proof.
  induction l as [|x t IH]; simpl; [reflexivity|].
  destruct (f x); simpl; [discriminate | exact IH].
Qed.

Lemma NoDup_map_filter {A B : Type} (k : A -> B) (f : A -> bool) (l : list A) :
  NoDup (map k l) -> NoDup (map k (filter f l)).
Proof.
  induction l as [|x t IH]; simpl; intros H; [constructor|].
  inversion H as [|? ? Hx Ht]; subst.
  destruct (f x); simpl; [|now apply IH].
  constructor; [|now apply IH].
  intros Hin. apply Hx. apply in_map_iff in Hin.
  destruct Hin as [y [Hy Hin]]. apply filter_In in Hin.
  apply in_map_iff. exists y. tauto.
Qed.

Lemma map_result_same {A : Type} (f : A -> result A) (l : list A) :
  (forall x, In x l -> f x = Ok x) -> map_result f l = Ok l.
Proof.
  induction l as [|x t IH]; simpl; intros H; [reflexivity|].
  rewrite (H x (or_introl eq_refl)). simpl.
  rewrite IH by (intros y Hy; apply H; now right). reflexivity.
Qed.

Lemma map_result_map {A B : Type} (f : A -> result B) (g : A -> B)
      (l : list A) :
  (forall x, In x l -> f x = Ok (g x)) -> map_result f l = Ok (map g l).
Proof.
  induction l as [|x t IH]; simpl; intros H; [reflexivity|].
  rewrite (H x (or_introl eq_refl)). simpl.
  rewrite IH by (intros y Hy; apply H; now right). reflexivity.
Qed.

Lemma map_result_Forall2 {A B : Type} (f : A -> result B)
      (l : list A) (l' : list B) :
  map_result f l = Ok l' -> Forall2 (fun x y => f x = Ok y) l l'.
Proof.
  revert l'. induction l as [|x t IH]; simpl; intros l' H.
  - injection H as <-. constructor.
  - destruct (f x) as [y|] eqn:Ex; [|discriminate]. simpl in H.
    destruct (map_result f t) as [t'|]; [|discriminate]. simpl in H.
    injection H as <-. constructor; [exact Ex | now apply IH].
Qed.

Lemma Forall2_in_r {A B : Type} (R : A -> B -> Prop) (l : list A) (l' : list B)
      (y : B) :
  Forall2 R l l' -> In y l' -> exists x, In x l /\ R x y.
Proof.
  induction 1 as [|a b t t' Hab Ht IH]; simpl; [tauto|].
  intros [<-|Hin].
  - eauto.
  - destruct (IH Hin) as [x [Hx HR]]. eauto.
Qed.

Lemma Zpos_of_nat_S (n : nat) : Z.pos (Pos.of_nat (S n)) = Z.of_nat (S n).
Proof. rewrite <- positive_nat_Z, Nat2Pos.id by discriminate. reflexivity. Qed.

(** ** The policies, spelled out *)

Lemma user_roles_select_using (d : db) (s : session) (r : user_role_row) :
  rls_using user_roles_policies SELECT d s r
  = sql_eq (auth_uid s) (ur_user_id r) || is_admin d s.
Proof. unfold rls_using, applies; simpl. now rewrite orb_false_r. Qed.

Lemma user_roles_insert_check (d : db) (s : session) (r : user_role_row) :
  rls_with_check user_roles_policies INSERT d s r = is_admin d s.
Proof. unfold rls_with_check, applies; simpl. now rewrite orb_false_r. Qed.

Lemma stores_select_using (d : db) (s : session) (r : store_row) :
  rls_using stores_policies SELECT d s r = is_authenticated s || is_admin d s.
Proof.
  unfold rls_using, applies; simpl.
  rewrite orb_false_r, andb_true_r. reflexivity.
Qed.

Lemma stores_update_using (d : db) (s : session) (r : store_row) :
  rls_using stores_policies UPDATE d s r = may_update_store d s r.
Proof. unfold rls_using, applies, may_update_store; simpl. now rewrite orb_false_r. Qed.

Lemma stores_update_check (d : db) (s : session) (r : store_row) :
  rls_with_check stores_policies UPDATE d s r = may_update_store d s r.
Proof.
  unfold rls_with_check, applies, may_update_store; simpl. now rewrite orb_false_r.
Qed.

Lemma ratings_select_using (d : db) (s : session) (r : rating_row) :
  rls_using ratings_policies SELECT d s r = is_authenticated s || is_admin d s.
Proof.
  unfold rls_using, applies; simpl.
  rewrite orb_false_r, andb_true_r. reflexivity.
Qed.

Lemma ratings_insert_check (d : db) (s : session) (r : rating_row) :
  rls_with_check ratings_policies INSERT d s r
  = may_write_rating d s (rt_user_id r).
Proof.
  unfold rls_with_check, applies, may_write_rating; simpl.
  now rewrite orb_false_r.
Qed.

Lemma ratings_update_using (d : db) (s : session) (r : rating_row) :
  rls_using ratings_policies UPDATE d s r = may_write_rating d s (rt_user_id r).
Proof.
  unfold rls_using, applies, may_write_rating; simpl. now rewrite orb_false_r.
Qed.

Lemma ratings_update_check (d : db) (s : session) (r : rating_row) :
  rls_with_check ratings_policies UPDATE d s r
  = may_write_rating d s (rt_user_id r).
Proof.
  unfold rls_with_check, applies, may_write_rating; simpl.
  now rewrite orb_false_r.
Qed.

Lemma ratings_delete_using (d : db) (s : session) (r : rating_row) :
  rls_using ratings_policies DELETE d s r = is_admin d s.
Proof. unfold rls_using, applies; simpl. now rewrite orb_false_r. Qed.

(** An administrator is signed in. *)
Lemma is_admin_authenticated (d : db) (s : session) :
  is_admin d s = true -> is_authenticated s = true.
Proof.
  destruct s as [|u]; simpl; [|reflexivity].
  unfold is_admin, has_role; simpl. intros H.
  apply existsb_exists in H. destruct H as [r [_ H]]. discriminate.
Qed.

Lemma has_role_anon (d : db) (r : app_role) : has_role d None r = false.
Proof.
  unfold has_role. induction (user_roles d) as [|x l IH]; simpl; auto.
Qed.

Lemma set_stores_same (d : db) : set_stores d (stores d) = d.
Proof. destruct d; reflexivity. Qed.

(** ** Role lookup and role bootstrap *)

(** Signed in as [u], the lookup of [u]'s roles sees every row of [u]. *)
Lemma select_own_roles (d : db) (u : uuid) :
  select_user_roles (authenticated u) d (fun r => ur_user_id r =? u)
  = filter (fun r => ur_user_id r =? u) (user_roles d).
Proof.
  unfold select_user_roles. apply filter_ext. intros r.
  rewrite user_roles_select_using. simpl.
  destruct (ur_user_id r =? u) eqn:E.
  - apply Z.eqb_eq in E. rewrite E, Z.eqb_refl. reflexivity.
  - apply andb_false_r.
Qed.

Lemma maybeSingle_many {A : Type} (l : list A) :
  (2 <= List.length l)%nat -> maybeSingle l = Err PGRST116.
Proof.
  destruct l as [|x [|y t]]; simpl; intros H; try lia. reflexivity.
Qed.

(** C10: signed in as a user who holds two or more role rows, the role
    lookup of [fetchUserRole] comes back with an error instead of one of the
    roles, [userRole] is set to null, nothing is written, and the page shown
    is the one of a user without a role. *)
Theorem fetchUserRole_several_roles
        (g : uuid) (now : timestamptz) (d : db) (u : uuid) :
  2 <= count_roles_of d u ->
  maybeSingle (select_user_roles (authenticated u) d (fun r => ur_user_id r =? u))
  = Err PGRST116
  /\ fetchUserRole (authenticated u) g now d u = (None, d)
  /\ renderDashboard (fst (fetchUserRole (authenticated u) g now d u))
     = RoleAssignmentPending.
Proof.
  intros H. unfold count_roles_of, COUNT in H.
  assert (E : maybeSingle (select_user_roles (authenticated u) d
                             (fun r => ur_user_id r =? u)) = Err PGRST116).
  { rewrite select_own_roles. apply maybeSingle_many. lia. }
  unfold fetchUserRole. rewrite E. simpl. repeat split.
Qed.

Lemma fetchUserRole_several_roles_witness :
  2 <= count_roles_of db_two_roles 3
  /\ fetchUserRole (authenticated 3) 900 200 db_two_roles 3 = (None, db_two_roles).
Proof.
  split.
  - vm_compute. discriminate.
  - apply (fetchUserRole_several_roles 900 200 db_two_roles 3).
    vm_compute. discriminate.
Defined.

(** A user without a role row is not an administrator. *)
Lemma no_role_not_admin (d : db) (u : uuid) :
  count_roles_of d u = 0 -> is_admin d (authenticated u) = false.
Proof.
  unfold count_roles_of, COUNT, is_admin, has_role. simpl.
  induction (user_roles d) as [|r l IH]; simpl; intros H; [reflexivity|].
  rewrite (Z.eqb_sym u).
  destruct (ur_user_id r =? u); simpl in *.
  - lia.
  - apply IH, H.
Qed.

(** What the count request of a session that is not an administrator sees:
    that user's own rows, whatever else the table holds. *)
Lemma count_user_roles_own (d : db) (u : uuid) :
  is_admin d (authenticated u) = false ->
  count_user_roles (authenticated u) d = count_roles_of d u.
Proof.
  intros H. unfold count_user_roles, count_roles_of, select_user_roles.
  f_equal. apply filter_ext. intros r.
  rewrite user_roles_select_using, H. simpl.
  rewrite orb_false_r, andb_true_r. apply Z.eqb_sym.
Qed.

(** The insert request of such a session is refused, whatever the role. *)
Lemma insert_user_role_denied
      (g : uuid) (now : timestamptz) (d : db) (s : session)
      (user_id : uuid) (role : app_role) :
  is_admin d s = false ->
  insert_user_role s g now d user_id role = Err insufficient_privilege.
Proof.
  intros H. unfold insert_user_role.
  rewrite user_roles_insert_check, H. reflexivity.
Qed.

(** So the bootstrap of a user without a role picks the administrator role
    and then fails: it returns null and leaves the table as it was. *)
Lemma assignDefaultRole_without_role
      (g : uuid) (now : timestamptz) (d : db) (u : uuid) :
  count_roles_of d u = 0 ->
  default_role (count_user_roles (authenticated u) d) = system_administrator
  /\ assignDefaultRole (authenticated u) g now d u = (None, d).
Proof.
  intros H. pose proof (no_role_not_admin d u H) as Hadm. split.
  - rewrite (count_user_roles_own d u Hadm), H. reflexivity.
  - unfold assignDefaultRole.
    rewrite (insert_user_role_denied g now d _ u _ Hadm). reflexivity.
Qed.

(** C3, at the inputs where the code departs from it.  On a platform without
    any role row, the bootstrap of user 4 returns null and stores nothing;
    with three role rows present, the count request of user 4 still answers
    0, so the role picked is again the administrator's, and again nothing is
    stored. *)
Theorem assignDefaultRole_stores_nothing :
  COUNT (user_roles db_fresh) = 0
  /\ assignDefaultRole (authenticated 4) 900 200 db_fresh 4 = (None, db_fresh)
  /\ COUNT (user_roles db0) = 3
  /\ count_user_roles (authenticated 4) db0 = 0
  /\ default_role (count_user_roles (authenticated 4) db0) = system_administrator
  /\ assignDefaultRole (authenticated 4) 900 200 db0 4 = (None, db0).
Proof. repeat split. Qed.

(** [fetchUserRole] reaches the bootstrap exactly for such a user. *)
Lemma fetchUserRole_without_role
      (g : uuid) (now : timestamptz) (d : db) (u : uuid) :
  count_roles_of d u = 0 ->
  fetchUserRole (authenticated u) g now d u = (None, d).
Proof.
  intros H. unfold fetchUserRole. rewrite select_own_roles.
  unfold count_roles_of, COUNT in H.
  destruct (filter (fun r => ur_user_id r =? u) (user_roles d)) as [|x l] eqn:E.
  - simpl. apply assignDefaultRole_without_role.
    unfold count_roles_of, COUNT. rewrite E. reflexivity.
  - simpl in H. lia.
Qed.

(** X19: sign-up goes the same way, signed in or not yet: for a user without
    a role row the toast announces the administrator role and no row is
    stored. *)
Lemma SignupForm_onSubmit_new_user
      (s : session) (g : uuid) (now : timestamptz) (d : db) (u : uuid) :
  s = anon \/ (s = authenticated u /\ count_roles_of d u = 0) ->
  SignupForm_onSubmit s g now d u = (system_administrator, d).
Proof.
  intros Hs. unfold SignupForm_onSubmit.
  assert (Hadm : is_admin d s = false).
  { destruct Hs as [->|[-> H]]; [apply has_role_anon | now apply no_role_not_admin]. }
  rewrite (insert_user_role_denied g now d s u _ Hadm).
  f_equal. destruct Hs as [->|[-> H]].
  - unfold count_user_roles, select_user_roles.
    rewrite filter_none_in; [reflexivity|]. intros r _.
    rewrite user_roles_select_using, Hadm. reflexivity.
  - now rewrite (count_user_roles_own d u Hadm), H.
Qed.

(** Run alone, the two requests of a client are [assignDefaultRole]. *)
Lemma client_steps_sequential
      (g0 g : uuid) (now0 now : timestamptz) (d : db) (u : uuid) :
  let st1 := client_step g0 now0 {| cl_user := u; cl_pc := at_count |} d in
  let st2 := client_step g now (fst st1) (snd st1) in
  snd st1 = d
  /\ cl_pc (fst st2) = returned (fst (assignDefaultRole (authenticated u) g now d u))
  /\ snd st2 = snd (assignDefaultRole (authenticated u) g now d u).
Proof.
  unfold client_step, assignDefaultRole. simpl.
  destruct (insert_user_role (authenticated u) g now d u
              (default_role (count_user_roles (authenticated u) d)));
    simpl; repeat split.
Qed.

(** C4, at the input where the code departs from it.  Two first-time logins
    on a platform without roles, their requests alternating: both count
    requests are answered before either insert, both clients pick the
    administrator role, both inserts are refused, and the number of
    administrators afterwards is zero, not one. *)
Theorem concurrent_bootstraps_no_single_admin :
  run (firstn 2 alternating) (two_clients, db_fresh)
  = ([ {| cl_user := 3; cl_pc := at_insert system_administrator |};
       {| cl_user := 4; cl_pc := at_insert system_administrator |} ], db_fresh)
  /\ run alternating (two_clients, db_fresh)
     = ([ {| cl_user := 3; cl_pc := returned None |};
          {| cl_user := 4; cl_pc := returned None |} ], db_fresh)
  /\ count_admins (snd (run alternating (two_clients, db_fresh))) = 0.
Proof. repeat split. Qed.

(** ** Explicit role assignment *)

(** C9, as the schema has it: an insert into [user_roles] conflicts only with
    a row of the same user and the same role.  An administrator who assigns
    role [r] to user [u] gets a unique violation when [u] already holds [r];
    when [u] does not hold [r], the row is added, whatever other roles [u]
    holds. *)
Theorem insert_user_role_conflict
        (s : session) (g : uuid) (now : timestamptz) (d : db)
        (u : uuid) (r : app_role) :
  is_admin d s = true ->
  (existsb (same_user_role u r) (user_roles d) = true ->
   insert_user_role s g now d u r = Err unique_violation)
  /\
  (existsb (same_user_role u r) (user_roles d) = false ->
   existsb (fun x => ur_id x =? g) (user_roles d) = false ->
   existsb (Z.eqb u) (auth_users d) = true ->
   insert_user_role s g now d u r
   = Ok (set_user_roles d
           (user_roles d ++ [ {| ur_id := g; ur_user_id := u; ur_role := r;
                                 ur_created_at := now |} ]))).
Proof.
  intros Hadm. unfold insert_user_role.
  rewrite user_roles_insert_check, Hadm. simpl. split.
  - intros Hdup.
    destruct (existsb (fun x => ur_id x =? g) (user_roles d)); simpl;
      [reflexivity|].
    rewrite Hdup. reflexivity.
  - intros Hfree Hid Hfk. rewrite Hid, Hfree, Hfk. reflexivity.
Qed.

Lemma insert_user_role_conflict_witness :
  is_admin db0 (authenticated 1) = true
  /\ insert_user_role (authenticated 1) 900 200 db0 3 normal_user
     = Err unique_violation
  /\ count_roles_of db_two_roles 3 = 2.
Proof.
  assert (Hadm : is_admin db0 (authenticated 1) = true) by reflexivity.
  split; [exact Hadm|]. split; [|reflexivity].
  destruct (insert_user_role_conflict (authenticated 1) 900 200 db0 3
              normal_user Hadm) as [Hdup _].
  exact (Hdup eq_refl).
Defined.

(** The claim as worded fails: user 3 holds [normal_user], the administrator
    assigns [store_owner] to user 3, the insert succeeds and user 3 has two
    role rows. *)
Lemma second_role_accepted :
  count_roles_of db0 3 = 1
  /\ insert_user_role (authenticated 1) 504 4 db0 3 store_owner = Ok db_two_roles
  /\ count_roles_of db_two_roles 3 = 2.
Proof. repeat split. Qed.

(** X18: an accepted insert into [user_roles] keeps the primary key and
    [UNIQUE (user_id, role)]. *)
Lemma insert_user_role_wf
      (s : session) (g : uuid) (now : timestamptz) (d d' : db)
      (u : uuid) (r : app_role) :
  user_roles_wf (user_roles d) ->
  insert_user_role s g now d u r = Ok d' ->
  user_roles_wf (user_roles d').
Proof.
  unfold insert_user_role, user_roles_wf. intros [Hid Hkey] H.
  destruct (rls_with_check user_roles_policies INSERT d s _); [|discriminate].
  simpl in H.
  destruct (existsb (fun x => ur_id x =? g) (user_roles d)) eqn:Eid;
    [discriminate|]. simpl in H.
  destruct (existsb (same_user_role u r) (user_roles d)) eqn:Ekey;
    [discriminate|]. simpl in H.
  destruct (existsb (Z.eqb u) (auth_users d)); [|discriminate].
  simpl in H. injection H as <-. simpl.
  rewrite !map_app. simpl. split; apply NoDup_snoc; trivial.
  - apply (existsb_false_not_in _ _ _ _ (fun x Hx => proj2 (Z.eqb_eq _ _) Hx) Eid).
  - refine (existsb_false_not_in _ _ _ _ _ Ekey).
    intros x Hx. injection Hx as Hu Hr. unfold same_user_role.
    rewrite Hu, Hr, Z.eqb_refl, app_role_eqb_refl. reflexivity.
Qed.

(** ** Reading the ratings of a store *)

Lemma ratings_of_store_authenticated (d : db) (u sid : uuid) :
  ratings_of_store (authenticated u) d (Some sid) = ledger d sid.
Proof.
  unfold ratings_of_store, ledger. apply filter_ext. intros r.
  rewrite ratings_select_using. simpl. apply Z.eqb_sym.
Qed.

Lemma ratings_of_store_anon (d : db) (sid : option uuid) :
  ratings_of_store anon d sid = [].
Proof.
  unfold ratings_of_store. apply filter_none_in. intros r _.
  rewrite ratings_select_using. unfold is_admin. simpl.
  rewrite has_role_anon. reflexivity.
Qed.

(** C5, as the policies have it: every signed-in actor, owner of the store
    or not, administrator or not, reads all rating rows of every store,
    newest first; nothing is ever refused. *)
Theorem select_ratings_of_store_authenticated (d : db) (u sid : uuid) :
  select_ratings_of_store (authenticated u) d sid
  = order_created_at_desc (ledger d sid).
Proof.
  unfold select_ratings_of_store. now rewrite ratings_of_store_authenticated.
Qed.

(** The claim as worded fails: user 4 holds no role and owns no store, and
    reads the rating that user 3 gave store 10. *)
Lemma stranger_reads_ratings :
  is_admin db1 (authenticated 4) = false
  /\ select_stores (authenticated 4) db1 (fun st => st_user_id st =? 4) = []
  /\ select_ratings_of_store (authenticated 4) db1 10 = [rating900].
Proof. repeat split. Qed.

(** The owner's dashboard asks for the ratings of the signed-in user's one
    store. *)
Lemma fetchRatings_own_store (d : db) (u : uuid) (st : store_row) :
  select_stores (authenticated u) d (fun st => st_user_id st =? u) = [st] ->
  fetchRatings (authenticated u) d
  = Some (order_created_at_desc (ledger d (st_id st))).
Proof.
  intros H. unfold fetchRatings. simpl. rewrite H. simpl.
  unfold select_ratings_of_store. now rewrite ratings_of_store_authenticated.
Qed.

(** [order('created_at', { ascending: false })] keeps the rows and puts them
    in descending order of [created_at]. *)
Lemma insert_desc_sorted (r : rating_row) (l : list rating_row) :
  sorted_desc l -> sorted_desc (insert_desc r l).
Proof.
  intros H. induction H as [|x|x y t Hxy Ht IH]; simpl.
  - constructor.
  - destruct (rt_created_at x <? rt_created_at r) eqn:E.
    + apply Z.ltb_lt in E. constructor; [lia | constructor].
    + apply Z.ltb_ge in E. constructor; [lia | constructor].
  - destruct (rt_created_at x <? rt_created_at r) eqn:E.
    + apply Z.ltb_lt in E. constructor; [lia|]. now constructor.
    + apply Z.ltb_ge in E. simpl in IH.
      destruct (rt_created_at y <? rt_created_at r) eqn:E'.
      * apply Z.ltb_lt in E'. constructor; [lia|]. exact IH.
      * constructor; [exact Hxy | exact IH].
Qed.

Lemma order_created_at_desc_sorted (l : list rating_row) :
  sorted_desc (order_created_at_desc l).
Proof.
  induction l as [|x t IH]; simpl; [constructor|].
  apply insert_desc_sorted, IH.
Qed.

Lemma insert_desc_in (r x : rating_row) (l : list rating_row) :
  In x (insert_desc r l) <-> x = r \/ In x l.
Proof.
  induction l as [|y t IH]; simpl.
  - intuition.
  - destruct (rt_created_at y <? rt_created_at r); simpl.
    + intuition.
    + rewrite IH. intuition.
Qed.

Lemma insert_desc_length (r : rating_row) (l : list rating_row) :
  List.length (insert_desc r l) = S (List.length l).
Proof.
  induction l as [|y t IH]; simpl; [reflexivity|].
  destruct (rt_created_at y <? rt_created_at r); simpl; [reflexivity|].
  now rewrite IH.
Qed.

Lemma order_created_at_desc_in (x : rating_row) (l : list rating_row) :
  In x (order_created_at_desc l) <-> In x l.
Proof.
  induction l as [|y t IH]; simpl; [tauto|].
  rewrite insert_desc_in, IH. intuition.
Qed.

Lemma order_created_at_desc_length (l : list rating_row) :
  List.length (order_created_at_desc l) = List.length l.
Proof.
  induction l as [|y t IH]; simpl; [reflexivity|].
  now rewrite insert_desc_length, IH.
Qed.

(** ** Writing ratings *)

Lemma to_integer_ok (z : Z) (r : Z) : to_integer z = Ok r -> r = z.
Proof.
  unfold to_integer.
  destruct ((-2147483648 <=? z) && (z <=? 2147483647)); intros H;
    [now injection H | discriminate].
Qed.

Lemma insert_rating_denied
      (s : session) (g : uuid) (now : timestamptz) (d : db) (p : rating_payload) :
  may_write_rating d s (pl_user_id p) = false ->
  exists e, insert_rating s g now d p = Err e.
Proof.
  intros H. unfold insert_rating.
  destruct (to_integer (pl_rating p)); cbn [bind]; [|eauto].
  rewrite ratings_insert_check. simpl rt_user_id. rewrite H. simpl. eauto.
Qed.

Lemma upsert_rating_denied
      (s : session) (g : uuid) (now : timestamptz) (d : db) (p : rating_payload)
      (onConflict : option conflict_target) :
  may_write_rating d s (pl_user_id p) = false ->
  exists e, upsert_rating s g now d p onConflict = Err e.
Proof.
  intros H. unfold upsert_rating.
  destruct (to_integer (pl_rating p)); cbn [bind]; [|eauto].
  rewrite ratings_insert_check. simpl rt_user_id. rewrite H. simpl. eauto.
Qed.

Lemma update_rating_denied
      (s : session) (now : timestamptz) (d d' : db) (rid : uuid)
      (p : rating_payload) :
  may_write_rating d s (pl_user_id p) = false ->
  update_rating s now d rid p = Ok d' -> d' = d.
Proof.
  intros H. unfold update_rating.
  destruct (find (fun r => rt_id r =? rid) (ratings d)) as [old|];
    [|intros E; now injection E].
  destruct (rls_using ratings_policies SELECT d s old
            && rls_using ratings_policies UPDATE d s old);
    [|intros E; now injection E].
  destruct (to_integer (pl_rating p)); cbn [bind]; [|discriminate].
  unfold update_rating_row. rewrite ratings_update_check. simpl rt_user_id.
  rewrite H. simpl. discriminate.
Qed.

(** An update also needs the policies' consent on the row as it was: a row
    of somebody else stays as it is. *)
Lemma update_rating_foreign_row
      (s : session) (now : timestamptz) (d : db) (rid : uuid)
      (p : rating_payload) (old : rating_row) :
  find (fun r => rt_id r =? rid) (ratings d) = Some old ->
  may_write_rating d s (rt_user_id old) = false ->
  update_rating s now d rid p = Ok d.
Proof.
  intros Hf H. unfold update_rating. rewrite Hf, ratings_update_using, H.
  now rewrite andb_false_r.
Qed.

(** The same for an upsert that meets a conflict: the conflicting row must be
    within the session's reach, or the statement fails. *)
Lemma upsert_rating_foreign_row
      (s : session) (g : uuid) (now : timestamptz) (d : db) (p : rating_payload)
      (onConflict : option conflict_target) (old : rating_row) :
  arbiter (match onConflict with Some t => t | None => ratings_pkey end)
          (new_rating g now p) (ratings d) = Some old ->
  may_write_rating d s (rt_user_id old) = false ->
  exists e, upsert_rating s g now d p onConflict = Err e.
Proof.
  intros Ha H. unfold upsert_rating.
  destruct (to_integer (pl_rating p)); cbn [bind]; [|eauto].
  destruct (rls_with_check ratings_policies INSERT d s (new_rating g now p));
    cbn [guard bind]; [|eauto].
  destruct (ratings_check (new_rating g now p)); cbn [guard bind]; [|eauto].
  rewrite Ha, ratings_update_using, H, andb_false_r. cbn [guard bind]. eauto.
Qed.

(** C6, as the policies have it: a session may write a rating row of user
    [u] when it holds [normal_user] and is [u] itself, or when it holds
    [system_administrator].  A session that may not write the row it
    proposes cannot create or change anything: insert and upsert come back
    with an error, an update changes nothing, and [submitRating] shows the
    error toast and leaves the database as it was.  A session that may not
    write the row already stored cannot overwrite it either, whatever it
    proposes: the update changes nothing and the upsert that runs into that
    row fails.  So an update that changes the database is run by a session
    that may write both the row as it was and the row as it becomes. *)
Theorem rating_write_denied
        (s : session) (g : uuid) (now : timestamptz) (d : db)
        (p : rating_payload) (onConflict : option conflict_target) (rid : uuid) :
  (may_write_rating d s (pl_user_id p) = false ->
   (exists e, insert_rating s g now d p = Err e)
   /\ (exists e, upsert_rating s g now d p onConflict = Err e)
   /\ (forall d', update_rating s now d rid p = Ok d' -> d' = d)
   /\ (auth_uid s = Some (pl_user_id p) -> pl_rating p <> 0 ->
       exists e, submitRating s g now d (Some (pl_store_id p)) (pl_rating p)
                 = (Some (toast_error e), d)))
  /\ (forall old,
        find (fun r => rt_id r =? rid) (ratings d) = Some old ->
        may_write_rating d s (rt_user_id old) = false ->
        update_rating s now d rid p = Ok d)
  /\ (forall old,
        arbiter (match onConflict with Some t => t | None => ratings_pkey end)
                (new_rating g now p) (ratings d) = Some old ->
        may_write_rating d s (rt_user_id old) = false ->
        exists e, upsert_rating s g now d p onConflict = Err e)
  /\ (forall d',
        update_rating s now d rid p = Ok d' -> d' <> d ->
        exists old,
          find (fun r => rt_id r =? rid) (ratings d) = Some old
          /\ may_write_rating d s (rt_user_id old) = true
          /\ may_write_rating d s (pl_user_id p) = true).
Proof.
  split; [|split; [|split]].
  - intros H. repeat split.
    + now apply insert_rating_denied.
    + now apply upsert_rating_denied.
    + intros d'. now apply update_rating_denied.
    + intros Hu Hv. unfold submitRating. rewrite Hu.
      destruct (pl_rating p =? 0) eqn:E; [apply Z.eqb_eq in E; contradiction|].
      destruct (upsert_rating_denied s g now d
                  {| pl_user_id := pl_user_id p; pl_store_id := pl_store_id p;
                     pl_rating := pl_rating p |} None H) as [e He].
      rewrite He. eauto.
  - intros old. apply update_rating_foreign_row.
  - intros old. apply upsert_rating_foreign_row.
  - intros d' Hup Hne.
    destruct (find (fun r => rt_id r =? rid) (ratings d)) as [old|] eqn:Ef.
    + exists old. split; [reflexivity|]. split.
      * destruct (may_write_rating d s (rt_user_id old)) eqn:E; [reflexivity|].
        rewrite (update_rating_foreign_row s now d rid p old Ef E) in Hup.
        injection Hup as <-. contradiction.
      * destruct (may_write_rating d s (pl_user_id p)) eqn:E; [reflexivity|].
        exfalso. apply Hne. exact (update_rating_denied s now d d' rid p E Hup).
    + unfold update_rating in Hup. rewrite Ef in Hup.
      injection Hup as <-. contradiction.
Qed.

Lemma rating_write_denied_witness :
  may_write_rating db0 (authenticated 2) 2 = false
  /\ (exists e, submitRating (authenticated 2) 900 200 db0 (Some 10) 4
                = (Some (toast_error e), db0))
  /\ may_write_rating db_rating_of_4 (authenticated 3) 3 = true
  /\ may_write_rating db_rating_of_4 (authenticated 3) 4 = false
  /\ update_rating (authenticated 3) 300 db_rating_of_4 901
       {| pl_user_id := 3; pl_store_id := 10; pl_rating := 5 |}
     = Ok db_rating_of_4
  /\ exists e, upsert_rating (authenticated 3) 901 300 db_rating_of_4
                 {| pl_user_id := 3; pl_store_id := 10; pl_rating := 5 |} None
               = Err e.
Proof.
  assert (H : may_write_rating db0 (authenticated 2) 2 = false) by reflexivity.
  assert (H4 : may_write_rating db_rating_of_4 (authenticated 3) 4 = false)
    by reflexivity.
  split; [exact H|]. split.
  - destruct (rating_write_denied (authenticated 2) 900 200 db0
                {| pl_user_id := 2; pl_store_id := 10; pl_rating := 4 |}
                None 0) as [Hd _].
    destruct (Hd H) as [_ [_ [_ Hs]]].
    apply Hs; [reflexivity | discriminate].
  - split; [reflexivity|]. split; [exact H4|].
    destruct (rating_write_denied (authenticated 3) 901 300 db_rating_of_4
                {| pl_user_id := 3; pl_store_id := 10; pl_rating := 5 |}
                None 901) as [_ [Hu [Hups _]]].
    split.
    + exact (Hu rating901 eq_refl H4).
    + exact (Hups rating901 eq_refl H4).
Defined.

(** The claim as worded fails: user 1 holds [system_administrator] and not
    [normal_user], and creates a rating row in the name of user 3. *)
Lemma admin_creates_rating :
  has_role db0 (Some 1) normal_user = false
  /\ ratings db0 = []
  /\ exists d', insert_rating (authenticated 1) 900 200 db0
                  {| pl_user_id := 3; pl_store_id := 10; pl_rating := 4 |} = Ok d'
                /\ ratings d' = [rating900].
Proof. repeat split. eexists. split; reflexivity. Qed.

(** ** Out-of-range values *)







(** ** Updating a store row *)

(** An [UPDATE public.stores] whose WHERE clause selects only rows the
    session may not update changes nothing and reports nothing. *)
Lemma update_stores_foreign
      (s : session) (now : timestamptz) (d : db)
      (where_ : store_row -> bool) (set_ : store_row -> result store_row) :
  (forall st, In st (stores d) -> where_ st = true ->
              may_update_store d s st = false) ->
  update_stores s now d where_ set_ = Ok d.
Proof.
  intros H. unfold update_stores.
  rewrite map_result_same.
  - simpl. now rewrite set_stores_same.
  - intros st Hin. unfold update_store_row.
    destruct (where_ st) eqn:E; [|reflexivity].
    rewrite stores_update_using, (H st Hin E).
    now rewrite andb_false_r.
Qed.

(** For the owner and for administrators the patch goes through, column by
    column, as long as the patched row keeps the CHECK constraints. *)
Lemma may_update_store_select (d : db) (s : session) (st : store_row) :
  may_update_store d s st = true ->
  rls_using stores_policies SELECT d s st = true.
Proof.
  rewrite stores_select_using. unfold may_update_store.
  destruct s as [|u]; [|reflexivity].
  unfold is_admin. cbn [auth_uid sql_eq]. now rewrite has_role_anon.
Qed.

Lemma update_store_row_permitted
      (s : session) (now : timestamptz) (d : db) (sid : uuid)
      (p : store_patch) (st st1 : store_row) :
  st_id st = sid ->
  may_update_store d s st = true ->
  patch_store p st = Ok st1 ->
  stores_check st1 = true ->
  update_store_row s now d (fun x => st_id x =? sid) (patch_store p) st
  = Ok (stores_before_update now st1).
Proof.
  intros Hid Hmay Hp Hc. unfold update_store_row.
  rewrite Hid, Z.eqb_refl, (may_update_store_select d s st Hmay),
    stores_update_using, Hmay.
  cbn [andb orb]. rewrite Hp. cbn [bind].
  rewrite stores_update_check.
  replace (may_update_store d s (stores_before_update now st1)) with true.
  - cbn [guard bind].
    replace (stores_check (stores_before_update now st1)) with true by
      (symmetry; exact Hc).
    reflexivity.
  - symmetry. unfold may_update_store in *. simpl.
    replace (st_user_id st1) with (st_user_id st); [exact Hmay|].
    unfold patch_store in Hp.
    destruct (match pt_average_rating p with
              | Some (Some x) => _ | Some None => _ | None => _ end);
      cbn [bind] in Hp; [|discriminate].
    destruct (match pt_total_ratings p with
              | Some (Some x) => _ | Some None => _ | None => _ end);
      cbn [bind] in Hp; [|discriminate].
    injection Hp as <-. reflexivity.
Qed.

(** C7, as the policies have it: an update of store [sid] by a session that
    is neither the owner of that row nor an administrator changes nothing,
    whatever columns the patch names, the two aggregates included.  The
    owner and the administrators are not held back: their write to
    [average_rating] and [total_ratings] is stored, whenever the two values
    fit [DECIMAL(2,1)] and [INTEGER], in every row of that id, and nothing
    else changes but [updated_at]. *)
Theorem update_store_foreign
        (s : session) (now : timestamptz) (d : db) (sid : uuid) (p : store_patch) :
  ((forall st, In st (stores d) -> st_id st = sid ->
               may_update_store d s st = false) ->
   update_store s now d sid p = Ok d)
  /\ (forall x z a c,
        (forall st, In st (stores d) -> st_id st = sid ->
                    may_update_store d s st = true /\ stores_check st = true) ->
        to_decimal_2_1 x = Ok a ->
        to_integer z = Ok c ->
        update_store s now d sid (aggregates_only x z)
        = Ok (set_stores d
                (map (fun st => if st_id st =? sid
                                then with_aggregates now a c st else st)
                     (stores d)))).
Proof.
  split.
  - intros H. unfold update_store. apply update_stores_foreign.
    intros st Hin E. apply Z.eqb_eq in E. now apply H.
  - intros x z a c H Ha Hc. unfold update_store, update_stores.
    rewrite (map_result_map _
               (fun st => if st_id st =? sid
                          then with_aggregates now a c st else st)).
    + reflexivity.
    + intros st Hin. destruct (st_id st =? sid) eqn:E.
      * apply Z.eqb_eq in E. destruct (H st Hin E) as [Hmay Hck].
        apply (update_store_row_permitted s now d sid (aggregates_only x z)
                 st
                 {| st_id := st_id st; st_user_id := st_user_id st;
                    st_name := st_name st; st_email := st_email st;
                    st_address := st_address st;
                    st_average_rating := Some a; st_total_ratings := Some c;
                    st_created_at := st_created_at st;
                    st_updated_at := st_updated_at st |}); trivial.
        unfold patch_store, aggregates_only. cbn [pt_average_rating
          pt_total_ratings pt_name pt_email pt_address patched].
        rewrite Ha, Hc. reflexivity.
      * unfold update_store_row. rewrite E. reflexivity.
Qed.

Lemma update_store_foreign_witness :
  (forall st, In st (stores db0) -> st_id st = 10 ->
              may_update_store db0 (authenticated 3) st = false)
  /\ update_store (authenticated 3) 300 db0 10 aggregates_patch = Ok db0
  /\ update_store (authenticated 2) 300 db0 10
       (aggregates_only {| num := 5; den := 1 |} 1000)
     = Ok (set_stores db0 [with_aggregates 300 50 1000 store10]).
Proof.
  assert (H : forall st, In st (stores db0) -> st_id st = 10 ->
                         may_update_store db0 (authenticated 3) st = false).
  { intros st [<-|[]] _. reflexivity. }
  assert (H2 : forall st, In st (stores db0) -> st_id st = 10 ->
                          may_update_store db0 (authenticated 2) st = true
                          /\ stores_check st = true).
  { intros st [<-|[]] _. split; reflexivity. }
  split; [exact H|]. split.
  - exact (proj1 (update_store_foreign (authenticated 3) 300 db0 10
                    aggregates_patch) H).
  - exact (proj2 (update_store_foreign (authenticated 2) 300 db0 10
                    aggregates_patch)
             {| num := 5; den := 1 |} 1000 50 1000 H2 eq_refl eq_refl).
Defined.

(** The claim as worded fails: the owner of store 10 writes 5.0 and 1000
    into the aggregate columns while the ledger of store 10 is empty. *)
Lemma owner_overwrites_aggregates :
  ledger db0 10 = []
  /\ exists d', update_store (authenticated 2) 300 db0 10 aggregates_patch = Ok d'
                /\ map (fun st => (st_id st, st_average_rating st, st_total_ratings st))
                       (stores d') = [(10, Some 50, Some 1000)].
Proof. split; [reflexivity|]. eexists. split; reflexivity. Qed.

(** ** The aggregation trigger *)

(** Rounding to the nearest: the result is within one half of [p / q], and a
    tie goes up. *)
Lemma round_half_away_nearest (p q : Z) :
  0 <= p -> 0 < q ->
  2 * q * round_half_away p q - q <= 2 * p < 2 * q * round_half_away p q + q.
Proof.
  intros Hp Hq. unfold round_half_away.
  destruct (0 <=? p) eqn:E; [|apply Z.leb_gt in E; lia].
  pose proof (Z.div_mod (2 * p + q) (2 * q) ltac:(lia)) as Hdm.
  pose proof (Z.mod_pos_bound (2 * p + q) (2 * q) ltac:(lia)) as Hm.
  lia.
Qed.

(** The trigger touches [stores] only. *)
Lemma update_store_rating_frame
      (s : session) (now : timestamptz) (NEW OLD : option rating_row)
      (d d' : db) :
  update_store_rating s now NEW OLD d = Ok d' ->
  ratings d' = ratings d /\ user_roles d' = user_roles d
  /\ auth_users d' = auth_users d.
Proof.
  unfold update_store_rating, update_stores.
  destruct (map_result _ (stores d)); simpl; intros H; [|discriminate].
  injection H as <-. repeat split.
Qed.

(** Fired by a session that may update none of the rows of the affected
    store, the trigger changes nothing: its UPDATE finds no row within the
    session's policies. *)
Lemma update_store_rating_foreign
      (s : session) (now : timestamptz) (NEW OLD : option rating_row) (d : db) :
  (forall st, In st (stores d) ->
     sql_eq (COALESCE (option_map rt_store_id NEW) (option_map rt_store_id OLD))
            (st_id st) = true ->
     may_update_store d s st = false) ->
  update_store_rating s now NEW OLD d = Ok d.
Proof.
  intros H. unfold update_store_rating. now apply update_stores_foreign.
Qed.

Lemma to_decimal_2_1_AVG (rs : list rating_row) (a : Z) :
  to_decimal_2_1
    (match COALESCE (AVG (map rt_rating rs)) (Some numeric_zero) with
     | Some x => x
     | None => numeric_zero
     end) = Ok a ->
  a = spec_average_rating rs.
Proof.
  unfold to_decimal_2_1, spec_average_rating.
  destruct rs as [|r t].
  - cbn. intros H. now injection H.
  - change (AVG (map rt_rating (r :: t)))
      with (Some {| num := SUM (map rt_rating (r :: t));
                    den := Pos.of_nat (List.length (map rt_rating (r :: t))) |}).
    cbn [COALESCE num den]. rewrite length_map.
    change (List.length (r :: t)) with (S (List.length t)).
    rewrite Zpos_of_nat_S.
    destruct (Z.abs _ <=? 99); intros H; [now injection H | discriminate].
Qed.

Lemma ratings_of_store_signed_in (s : session) (d : db) (sid : uuid) :
  is_authenticated s = true ->
  ratings_of_store s d (Some sid) = ledger d sid.
Proof.
  destruct s as [|u]; [discriminate|]. intros _.
  apply ratings_of_store_authenticated.
Qed.

(** Fired by a signed-in session that may update the rows of the affected
    store (its owner, an administrator), the trigger leaves the store's
    aggregates equal to the count and the rounded mean of its ledger. *)
Lemma update_store_rating_recomputes
      (s : session) (now : timestamptz) (NEW OLD : option rating_row)
      (d d' : db) (sid : uuid) :
  is_authenticated s = true ->
  COALESCE (option_map rt_store_id NEW) (option_map rt_store_id OLD) = Some sid ->
  (forall st, In st (stores d) -> st_id st = sid ->
              may_update_store d s st = true) ->
  update_store_rating s now NEW OLD d = Ok d' ->
  aggregates_current d' sid.
Proof.
  intros Hauth Hsid Hmay H.
  destruct (update_store_rating_frame _ _ _ _ _ _ H) as [Hr _].
  intros st' Hin' Hid'. unfold ledger. rewrite Hr. fold (ledger d sid).
  unfold update_store_rating, update_stores in H. rewrite Hsid in H.
  destruct (map_result _ (stores d)) as [rows|] eqn:E; [|discriminate].
  cbn [bind] in H. injection H as <-. simpl in Hin'.
  apply map_result_Forall2 in E.
  destruct (Forall2_in_r _ _ _ _ E Hin') as [st [Hin Hst]]. clear E.
  unfold update_store_row in Hst. cbn [sql_eq] in Hst.
  destruct (sid =? st_id st) eqn:Eid.
  - apply Z.eqb_eq in Eid.
    rewrite stores_select_using, Hauth, stores_update_using,
      (Hmay st Hin (eq_sym Eid)) in Hst.
    cbn [andb orb] in Hst.
    rewrite (ratings_of_store_signed_in s d sid Hauth) in Hst.
    destruct (to_decimal_2_1 _) as [a|] eqn:Ea; cbn [bind] in Hst;
      [|discriminate].
    apply to_decimal_2_1_AVG in Ea.
    destruct (to_integer _) as [c|] eqn:Ec; cbn [bind] in Hst; [|discriminate].
    apply to_integer_ok in Ec.
    destruct (guard (rls_with_check _ _ _ _ _) _); cbn [bind] in Hst;
      [|discriminate].
    destruct (guard (stores_check _) _); cbn [bind] in Hst; [|discriminate].
    injection Hst as <-. simpl.
    subst a c. split; reflexivity.
  - cbn [andb] in Hst. injection Hst as <-.
    apply Z.eqb_neq in Eid. congruence.
Qed.

(** An accepted INSERT adds the proposed row and then fires the trigger. *)
Lemma insert_rating_ok
      (s : session) (g : uuid) (now : timestamptz) (d d' : db)
      (p : rating_payload) :
  insert_rating s g now d p = Ok d' ->
  ratings_fkeys d (new_rating g now p) = true
  /\ update_store_rating s now (Some (new_rating g now p)) None
       (set_ratings d (ratings d ++ [new_rating g now p])) = Ok d'.
Proof.
  unfold insert_rating, insert_rating_row. intros H.
  destruct (to_integer (pl_rating p)); cbn [bind] in H; [|discriminate].
  destruct (guard (rls_with_check _ _ _ _ _) _); cbn [bind] in H;
    [|discriminate].
  destruct (guard (ratings_check _) _); cbn [bind] in H; [|discriminate].
  destruct (guard (ratings_pkey_free _ _) _); cbn [bind] in H; [|discriminate].
  destruct (guard (ratings_user_store_free _ _ _) _); cbn [bind] in H;
    [|discriminate].
  destruct (ratings_fkeys d (new_rating g now p)) eqn:Efk; cbn [bind guard] in H;
    [|discriminate].
  split; [reflexivity | exact H].
Qed.

(** A rating inserted by the store's owner or by an administrator leaves the
    store's aggregates current. *)
Lemma insert_rating_recomputes
      (s : session) (g : uuid) (now : timestamptz) (d d' : db)
      (p : rating_payload) :
  is_authenticated s = true ->
  (forall st, In st (stores d) -> st_id st = pl_store_id p ->
              may_update_store d s st = true) ->
  insert_rating s g now d p = Ok d' ->
  ratings d' = ratings d ++ [new_rating g now p]
  /\ aggregates_current d' (pl_store_id p).
Proof.
  intros Hauth Hmay H. apply insert_rating_ok in H. destruct H as [_ H]. split.
  - now destruct (update_store_rating_frame _ _ _ _ _ _ H) as [-> _].
  - apply (update_store_rating_recomputes s now (Some (new_rating g now p)) None
             (set_ratings d (ratings d ++ [new_rating g now p])) d'
             (pl_store_id p) Hauth eq_refl Hmay H).
Qed.

(** A rating inserted by anybody else leaves the [stores] table as it was:
    the new row is in the ledger and the aggregates are those of before. *)
Lemma insert_rating_stale
      (s : session) (g : uuid) (now : timestamptz) (d d' : db)
      (p : rating_payload) :
  (forall st, In st (stores d) -> st_id st = pl_store_id p ->
              may_update_store d s st = false) ->
  insert_rating s g now d p = Ok d' ->
  d' = set_ratings d (ratings d ++ [new_rating g now p]).
Proof.
  intros Hmay H. apply insert_rating_ok in H. destruct H as [_ H].
  rewrite update_store_rating_foreign in H; [now injection H|].
  intros st Hin Hid. simpl in Hid. apply Z.eqb_eq in Hid.
  apply (Hmay st Hin). now symmetry.
Qed.

(** Without a conflict on the arbiter, an upsert is an insert. *)
Lemma upsert_rating_no_conflict
      (s : session) (g : uuid) (now : timestamptz) (d : db)
      (p : rating_payload) (onConflict : option conflict_target) :
  arbiter (match onConflict with
           | Some t => t
           | None => ratings_pkey
           end) (new_rating g now p) (ratings d) = None ->
  upsert_rating s g now d p onConflict = insert_rating s g now d p.
Proof.
  intros H. unfold upsert_rating, insert_rating. rewrite H. reflexivity.
Qed.

(** Aggregates that were current are not after such an insert: the ledger of
    the store has one row more than [total_ratings] says. *)
Lemma stale_aggregates_not_current
      (s : session) (g : uuid) (now : timestamptz) (d d' : db)
      (p : rating_payload) :
  (forall st, In st (stores d) -> st_id st = pl_store_id p ->
              may_update_store d s st = false) ->
  aggregates_current d (pl_store_id p) ->
  insert_rating s g now d p = Ok d' ->
  ~ aggregates_current d' (pl_store_id p).
Proof.
  intros Hmay Hcur H Hcur'.
  pose proof (insert_rating_stale s g now d d' p Hmay H) as ->.
  apply insert_rating_ok in H. destruct H as [Hfk _].
  unfold ratings_fkeys in Hfk. apply andb_true_iff in Hfk.
  destruct Hfk as [_ Hst]. apply existsb_exists in Hst.
  destruct Hst as [st [Hin Hid]]. simpl in Hid. apply Z.eqb_eq in Hid.
  destruct (Hcur st Hin Hid) as [Ht _].
  destruct (Hcur' st Hin Hid) as [Ht' _].
  rewrite Ht in Ht'. injection Ht' as Ht'.
  unfold spec_total_ratings, ledger in Ht'. simpl in Ht'.
  rewrite filter_app, length_app in Ht'. simpl in Ht'.
  rewrite Z.eqb_refl in Ht'. simpl in Ht'. lia.
Qed.

Lemma admin_may_write_rating (d : db) (s : session) (u : uuid) :
  is_admin d s = true -> may_write_rating d s u = true.
Proof. intros H. unfold may_write_rating. rewrite H. apply orb_true_r. Qed.

Lemma admin_may_update_store (d : db) (s : session) (st : store_row) :
  is_admin d s = true -> may_update_store d s st = true.
Proof. intros H. unfold may_update_store. rewrite H. apply orb_true_r. Qed.

(** The same for an update and for a delete run by an administrator: the
    store of the new row, respectively of the deleted row, has current
    aggregates afterwards. *)
Lemma update_rating_recomputes
      (s : session) (now : timestamptz) (d d' : db) (rid : uuid)
      (p : rating_payload) (old : rating_row) :
  is_admin d s = true ->
  find (fun r => rt_id r =? rid) (ratings d) = Some old ->
  update_rating s now d rid p = Ok d' ->
  aggregates_current d' (pl_store_id p).
Proof.
  intros Hadm Hf H. unfold update_rating in H. rewrite Hf in H.
  rewrite ratings_select_using, ratings_update_using in H.
  rewrite (admin_may_write_rating d s _ Hadm), Hadm, orb_true_r in H.
  cbn [andb] in H.
  destruct (to_integer (pl_rating p)); cbn [bind] in H; [|discriminate].
  unfold update_rating_row in H.
  destruct (guard (rls_with_check _ _ _ _ _) _); cbn [bind] in H;
    [|discriminate].
  destruct (guard (ratings_check _) _); cbn [bind] in H; [|discriminate].
  destruct (guard (ratings_user_store_free _ _ _) _); cbn [bind] in H;
    [|discriminate].
  destruct (guard (ratings_fkeys _ _) _); cbn [bind] in H; [|discriminate].
  apply (update_store_rating_recomputes s now _ _ _ d' (pl_store_id p)) in H;
    [exact H | exact (is_admin_authenticated d s Hadm) | reflexivity |].
  intros st _ _. now apply admin_may_update_store.
Qed.

Lemma delete_rating_recomputes
      (s : session) (now : timestamptz) (d d' : db) (rid : uuid)
      (old : rating_row) :
  is_admin d s = true ->
  find (fun r => rt_id r =? rid) (ratings d) = Some old ->
  delete_rating s now d rid = Ok d' ->
  ratings d' = filter (fun r => negb (rt_id r =? rid)) (ratings d)
  /\ aggregates_current d' (rt_store_id old).
Proof.
  intros Hadm Hf H. unfold delete_rating in H. rewrite Hf in H.
  rewrite ratings_select_using, ratings_delete_using in H.
  rewrite Hadm, orb_true_r in H. cbn [andb] in H. split.
  - now destruct (update_store_rating_frame _ _ _ _ _ _ H) as [-> _].
  - apply (update_store_rating_recomputes s now _ _ _ d' (rt_store_id old)) in H;
      [exact H | exact (is_admin_authenticated d s Hadm) | reflexivity |].
    intros st _ _. now apply admin_may_update_store.
Qed.

(** C1, at an input where the code departs from it.  Store 10 has no rating
    and aggregates 0.0 and 0.  User 3, a normal user who does not own the
    store, submits 4 stars: the row is stored and the success toast shown,
    the ledger of store 10 now has one row with mean 4.0, and the store
    still says 0.0 and 0.  The trigger ran as user 3, whom the policies of
    [stores] let update no row. *)
Theorem normal_user_rating_leaves_aggregates :
  aggregates_current db0 10
  /\ submitRating (authenticated 3) 900 200 db0 (Some 10) 4
     = (Some toast_success, db1)
  /\ spec_total_ratings (ledger db1 10) = 1
  /\ spec_average_rating (ledger db1 10) = 40
  /\ map (fun st => (st_id st, st_average_rating st, st_total_ratings st))
         (stores db1) = [(10, Some 0, Some 0)]
  /\ ~ aggregates_current db1 10.
Proof.
  split; [|split; [|split; [|split; [|split]]]]; try reflexivity.
  - intros st [<-|[]] _. split; reflexivity.
  - intros H. destruct (H store10 (or_introl eq_refl) eq_refl) as [Ht _].
    discriminate.
Qed.

(** The example of the specification, run by the administrator in the name
    of users 3 and 4: the trigger recomputes 4.0 and 1, then 3.0 and 2, then,
    after the first rating is changed to 5, 3.5 and 2. *)
Example aggregates_as_administrator :
  exists d1 d2 d3,
    insert_rating (authenticated 1) 900 200 db0
      {| pl_user_id := 3; pl_store_id := 10; pl_rating := 4 |} = Ok d1
    /\ insert_rating (authenticated 1) 901 201 d1
         {| pl_user_id := 4; pl_store_id := 10; pl_rating := 2 |} = Ok d2
    /\ update_rating (authenticated 1) 202 d2 900
         {| pl_user_id := 3; pl_store_id := 10; pl_rating := 5 |} = Ok d3
    /\ map (fun st => (st_average_rating st, st_total_ratings st)) (stores d1)
       = [(Some 40, Some 1)]
    /\ map (fun st => (st_average_rating st, st_total_ratings st)) (stores d2)
       = [(Some 30, Some 2)]
    /\ map (fun st => (st_average_rating st, st_total_ratings st)) (stores d3)
       = [(Some 35, Some 2)].
Proof. do 3 eexists. repeat split; reflexivity. Qed.

(** The trigger of an update recomputes the store of the new row only.  The
    administrator moves rating 900 from store 10 to store 11: store 11 gets
    4.0 and 1, store 10 keeps 4.0 and 1 although its ledger is empty now. *)
Example moved_rating_leaves_old_store :
  aggregates_current db_two_stores 10
  /\ aggregates_current db_two_stores 11
  /\ exists d',
       update_rating (authenticated 1) 300 db_two_stores 900
         {| pl_user_id := 3; pl_store_id := 11; pl_rating := 4 |} = Ok d'
       /\ ledger d' 10 = []
       /\ map (fun st => (st_id st, st_average_rating st, st_total_ratings st))
              (stores d')
          = [(10, Some 40, Some 1); (11, Some 40, Some 1)]
       /\ aggregates_current d' 11
       /\ ~ aggregates_current d' 10.
Proof.
  split; [|split].
  - intros st [<-|[<-|[]]] Hid; try discriminate. split; reflexivity.
  - intros st [<-|[<-|[]]] Hid; try discriminate. split; reflexivity.
  - eexists. split; [reflexivity|]. split; [reflexivity|].
    split; [reflexivity|]. split.
    + intros st [<-|[<-|[]]] Hid; try discriminate. split; reflexivity.
    + intros H.
      destruct (H _ (or_introl eq_refl) eq_refl) as [Ht _]. discriminate.
Qed.

(** ** One rating per user and store *)

(** A second submission for the same user and store, with a fresh uuid for
    the proposed row, never reaches the existing row: the primary key is the
    arbiter, the proposed row does not conflict on it, and what is left is an
    insert that [UNIQUE (user_id, store_id)] refuses (when an earlier check
    has not refused it already).  The database stays as it was. *)
Lemma submitRating_again_rejected
      (u : uuid) (g : uuid) (now : timestamptz) (d : db) (store : uuid) (v : Z) :
  v <> 0 ->
  existsb (same_user_store u store) (ratings d) = true ->
  ratings_pkey_free (ratings d) g = true ->
  exists e, submitRating (authenticated u) g now d (Some store) v
            = (Some (toast_error e), d)
            /\ (may_write_rating d (authenticated u) u = true ->
                1 <= v <= 5 -> e = unique_violation).
Proof.
  intros Hv Hdup Hfree. unfold submitRating. simpl auth_uid.
  destruct (v =? 0) eqn:E0; [apply Z.eqb_eq in E0; contradiction|].
  unfold upsert_rating. simpl pl_rating.
  unfold to_integer.
  destruct ((-2147483648 <=? v) && (v <=? 2147483647)) eqn:Ei; cbn [bind].
  2:{ eexists. split; [reflexivity|]. intros _ Hr.
      apply andb_false_iff in Ei. destruct Ei as [Ei|Ei];
        apply Z.leb_gt in Ei; lia. }
  rewrite ratings_insert_check. simpl rt_user_id.
  destruct (may_write_rating d (authenticated u) u); cbn [bind guard].
  2:{ eexists. split; [reflexivity | discriminate]. }
  unfold ratings_check. simpl rt_rating.
  destruct ((1 <=? v) && (v <=? 5)) eqn:Ec; cbn [bind guard].
  2:{ eexists. split; [reflexivity|]. intros _ Hr.
      apply andb_false_iff in Ec. destruct Ec as [Ec|Ec];
        apply Z.leb_gt in Ec; lia. }
  unfold arbiter. simpl rt_id.
  unfold ratings_pkey_free in Hfree. apply negb_true_iff in Hfree.
  rewrite (find_none_existsb _ _ Hfree).
  unfold insert_rating_row, ratings_pkey_free, ratings_user_store_free.
  simpl rt_id. simpl rt_user_id. simpl rt_store_id.
  rewrite Hfree, Hdup. cbn. eauto.
Qed.

(** C2, at an input where the code departs from it.  User 3 has rated store
    10 with 4 stars and submits 5 stars: the request comes back with a unique
    violation, and the row keeps its 4 stars and its timestamps. *)
Theorem second_rating_rejected :
  submitRating (authenticated 3) 900 200 db0 (Some 10) 4
  = (Some toast_success, db1)
  /\ submitRating (authenticated 3) 901 201 db1 (Some 10) 5
     = (Some (toast_error unique_violation), db1)
  /\ ratings db1 = [rating900]
  /\ rt_rating rating900 = 4.
Proof. repeat split. Qed.

(** With the unique constraint named as the conflict target, the same
    submission overwrites the value and [updated_at] of the existing row. *)
Example upsert_on_user_store_overwrites :
  upsert_rating (authenticated 3) 901 201 db1
    {| pl_user_id := 3; pl_store_id := 10; pl_rating := 5 |}
    (Some ratings_user_id_store_id_key)
  = Ok (set_ratings db0
          [ {| rt_id := 900; rt_user_id := 3; rt_store_id := 10; rt_rating := 5;
               rt_created_at := 200; rt_updated_at := 201 |} ]).
Proof. reflexivity. Qed.

(** The two unique indexes of [ratings] are kept by every statement. *)
Lemma same_user_store_key (u sid : uuid) (r : rating_row) :
  same_user_store u sid r = true <-> rating_key r = (u, sid).
Proof.
  unfold same_user_store, rating_key. rewrite andb_true_iff, !Z.eqb_eq.
  split; [intros [-> ->]; reflexivity | intros H; now injection H].
Qed.

Lemma ratings_wf_snoc (rs : list rating_row) (row : rating_row) :
  ratings_wf rs ->
  ratings_pkey_free rs (rt_id row) = true ->
  ratings_user_store_free rs (rt_user_id row) (rt_store_id row) = true ->
  ratings_wf (rs ++ [row]).
Proof.
  unfold ratings_wf, ratings_pkey_free, ratings_user_store_free.
  intros [Hid Hkey] Hp Hu. apply negb_true_iff in Hp, Hu.
  rewrite !map_app. simpl. split; apply NoDup_snoc; trivial.
  - apply (existsb_false_not_in _ _ _ _ (fun x Hx => proj2 (Z.eqb_eq _ _) Hx) Hp).
  - refine (existsb_false_not_in _ _ _ _ _ Hu).
    intros x Hx. now apply same_user_store_key.
Qed.

Lemma replace_by_id_same (rid : uuid) (new : rating_row) (l : list rating_row) :
  ~ In rid (map rt_id l) ->
  map (fun r => if rt_id r =? rid then new else r) l = l.
Proof.
  induction l as [|x t IH]; simpl; intros H; [reflexivity|].
  destruct (rt_id x =? rid) eqn:E.
  - apply Z.eqb_eq in E. tauto.
  - rewrite IH by tauto. reflexivity.
Qed.

Lemma ratings_wf_replace (rs : list rating_row) (rid : uuid) (new : rating_row) :
  rt_id new = rid ->
  ratings_wf rs ->
  ratings_user_store_free (filter (fun r => negb (rt_id r =? rid)) rs)
                          (rt_user_id new) (rt_store_id new) = true ->
  ratings_wf (map (fun r => if rt_id r =? rid then new else r) rs).
Proof.
  intros Hnew [Hid Hkey] Hfree. unfold ratings_user_store_free in Hfree.
  apply negb_true_iff in Hfree.
  assert (Hother : forall r, In r rs -> rt_id r <> rid ->
                             rating_key r <> rating_key new).
  { intros r Hin Hne Heq.
    assert (existsb (same_user_store (rt_user_id new) (rt_store_id new))
                    (filter (fun r => negb (rt_id r =? rid)) rs) = true);
      [|congruence].
    apply existsb_exists. exists r. split.
    - apply filter_In. split; [exact Hin|].
      apply negb_true_iff. now apply Z.eqb_neq.
    - now apply same_user_store_key. }
  clear Hfree. split.
  - rewrite map_map.
    replace (map (fun r => rt_id (if rt_id r =? rid then new else r)) rs)
      with (map rt_id rs); [exact Hid|].
    apply map_ext. intros r. destruct (rt_id r =? rid) eqn:E; [|reflexivity].
    apply Z.eqb_eq in E. congruence.
  - induction rs as [|x t IH]; simpl; [constructor|].
    simpl in Hid, Hkey.
    inversion Hid as [|? ? Hxi Hti]; inversion Hkey as [|? ? Hxk Htk]; subst.
    destruct (rt_id x =? rt_id new) eqn:E.
    + apply Z.eqb_eq in E. rewrite <- E.
      rewrite replace_by_id_same by exact Hxi.
      constructor; [|exact Htk].
      intros Hin. apply in_map_iff in Hin. destruct Hin as [y [Hy Hin]].
      apply (Hother y); [now right | | exact Hy].
      intros Hyi. apply Hxi. apply in_map_iff. exists y. split; congruence.
    + apply Z.eqb_neq in E. constructor.
      * intros Hin. apply in_map_iff in Hin. destruct Hin as [y [Hy Hin]].
        apply in_map_iff in Hin. destruct Hin as [z [Hz Hin]].
        destruct (rt_id z =? rt_id new) eqn:Ez; subst y.
        -- apply (Hother x); [now left | exact E | now symmetry].
        -- apply Hxk. apply in_map_iff. eauto.
      * apply IH; trivial. intros r Hin. apply Hother. now right.
Qed.

Lemma update_rating_row_ok
      (s : session) (now : timestamptz) (d d' : db) (old : rating_row)
      (p : rating_payload) :
  update_rating_row s now d old p = Ok d' ->
  ratings_user_store_free
    (filter (fun r => negb (rt_id r =? rt_id old)) (ratings d))
    (pl_user_id p) (pl_store_id p) = true
  /\ exists new,
       rt_id new = rt_id old /\ rt_user_id new = pl_user_id p
       /\ rt_store_id new = pl_store_id p /\ rt_rating new = pl_rating p
       /\ rt_updated_at new = now
       /\ ratings d' = map (fun r => if rt_id r =? rt_id old then new else r)
                           (ratings d).
Proof.
  unfold update_rating_row. intros H.
  destruct (guard (rls_with_check _ _ _ _ _) _); cbn [bind] in H;
    [|discriminate].
  destruct (guard (ratings_check _) _); cbn [bind] in H; [|discriminate].
  destruct (ratings_user_store_free _ _ _) eqn:Eu; cbn [bind guard] in H;
    [|discriminate].
  destruct (guard (ratings_fkeys _ _) _); cbn [bind] in H; [|discriminate].
  destruct (update_store_rating_frame _ _ _ _ _ _ H) as [Hr _].
  split; [reflexivity|].
  exists {| rt_id := rt_id old; rt_user_id := pl_user_id p;
            rt_store_id := pl_store_id p; rt_rating := pl_rating p;
            rt_created_at := rt_created_at old; rt_updated_at := now |}.
  simpl. repeat split. exact Hr.
Qed.

Lemma update_rating_row_wf
      (s : session) (now : timestamptz) (d d' : db) (old : rating_row)
      (p : rating_payload) :
  ratings_wf (ratings d) ->
  update_rating_row s now d old p = Ok d' ->
  ratings_wf (ratings d').
Proof.
  intros Hwf H. apply update_rating_row_ok in H.
  destruct H as [Hfree [new [Hid [Hu [Hs [_ [_ ->]]]]]]].
  apply ratings_wf_replace; trivial. now rewrite Hu, Hs.
Qed.

Lemma insert_rating_row_wf
      (s : session) (now : timestamptz) (d d' : db) (row : rating_row) :
  ratings_wf (ratings d) ->
  insert_rating_row s now d row = Ok d' ->
  ratings_wf (ratings d').
Proof.
  unfold insert_rating_row. intros Hwf H.
  destruct (ratings_pkey_free _ _) eqn:Ep; cbn [bind guard] in H;
    [|discriminate].
  destruct (ratings_user_store_free _ _ _) eqn:Eu; cbn [bind guard] in H;
    [|discriminate].
  destruct (guard (ratings_fkeys _ _) _); cbn [bind] in H; [|discriminate].
  destruct (update_store_rating_frame _ _ _ _ _ _ H) as [-> _].
  now apply ratings_wf_snoc.
Qed.

Lemma upsert_rating_wf
      (s : session) (g : uuid) (now : timestamptz) (d d' : db)
      (p : rating_payload) (onConflict : option conflict_target) :
  ratings_wf (ratings d) ->
  upsert_rating s g now d p onConflict = Ok d' ->
  ratings_wf (ratings d').
Proof.
  unfold upsert_rating. intros Hwf H.
  destruct (to_integer (pl_rating p)); cbn [bind] in H; [|discriminate].
  destruct (guard (rls_with_check _ _ _ _ _) _); cbn [bind] in H;
    [|discriminate].
  destruct (guard (ratings_check _) _); cbn [bind] in H; [|discriminate].
  destruct (arbiter _ _ _) as [old|].
  - destruct (guard _ insufficient_privilege); cbn [bind] in H; [|discriminate].
    now apply (update_rating_row_wf s now d d' old p).
  - now apply (insert_rating_row_wf s now d d' (new_rating g now p)).
Qed.

Lemma update_rating_wf
      (s : session) (now : timestamptz) (d d' : db) (rid : uuid)
      (p : rating_payload) :
  ratings_wf (ratings d) ->
  update_rating s now d rid p = Ok d' ->
  ratings_wf (ratings d').
Proof.
  unfold update_rating. intros Hwf H.
  destruct (find _ (ratings d)) as [old|]; [|now injection H as <-].
  destruct (_ && _); [|now injection H as <-].
  destruct (to_integer (pl_rating p)); cbn [bind] in H; [|discriminate].
  now apply (update_rating_row_wf s now d d' old p).
Qed.

Lemma delete_rating_wf
      (s : session) (now : timestamptz) (d d' : db) (rid : uuid) :
  ratings_wf (ratings d) ->
  delete_rating s now d rid = Ok d' ->
  ratings_wf (ratings d').
Proof.
  unfold delete_rating. intros Hwf H.
  destruct (find _ (ratings d)) as [old|]; [|now injection H as <-].
  destruct (_ && _); [|now injection H as <-].
  destruct (update_store_rating_frame _ _ _ _ _ _ H) as [-> _]. simpl.
  destruct Hwf as [Hid Hkey]. split; now apply NoDup_map_filter.
Qed.

(** Under [UNIQUE (user_id, store_id)] a user has at most one rating row per
    store. *)
Lemma ratings_wf_count (d : db) (u sid : uuid) :
  ratings_wf (ratings d) -> count_user_store d u sid <= 1.
Proof.
  intros [_ Hkey]. unfold count_user_store, COUNT.
  induction (ratings d) as [|x t IH]; simpl; [lia|].
  simpl in Hkey. inversion Hkey as [|? ? Hx Ht]; subst.
  destruct (same_user_store u sid x) eqn:E; [|now apply IH].
  apply same_user_store_key in E.
  rewrite (filter_none_in (same_user_store u sid) t); [simpl; lia|].
  intros z Hz. destruct (same_user_store u sid z) eqn:Ez; [|reflexivity].
  exfalso. apply Hx. apply same_user_store_key in Ez.
  apply in_map_iff. exists z. split; [congruence | exact Hz].
Qed.

(** So through [submitRating] the rows of one user for one store never
    exceed one. *)
Lemma submitRating_one_row
      (s : session) (g : uuid) (now : timestamptz) (d : db)
      (selectedStore : option uuid) (v : Z) (u sid : uuid) :
  ratings_wf (ratings d) ->
  ratings_wf (ratings (snd (submitRating s g now d selectedStore v)))
  /\ count_user_store (snd (submitRating s g now d selectedStore v)) u sid <= 1.
Proof.
  intros Hwf.
  assert (H : ratings_wf (ratings (snd (submitRating s g now d selectedStore v)))).
  { unfold submitRating.
    destruct selectedStore as [store|]; [|exact Hwf].
    destruct (auth_uid s) as [uid|]; [|exact Hwf].
    destruct (v =? 0); [exact Hwf|].
    destruct (upsert_rating s g now d _ None) as [d'|] eqn:E; [|exact Hwf].
    simpl. exact (upsert_rating_wf _ _ _ _ _ _ _ Hwf E). }
  split; [exact H | now apply ratings_wf_count].
Qed.

(** * Further properties of the code *)

(** ** Roles *)

Lemma insert_user_role_inv
      (s : session) (g : uuid) (now : timestamptz) (d d' : db)
      (u : uuid) (r : app_role) :
  insert_user_role s g now d u r = Ok d' ->
  is_admin d s = true
  /\ d' = set_user_roles d
            (user_roles d ++ [ {| ur_id := g; ur_user_id := u; ur_role := r;
                                  ur_created_at := now |} ]).
Proof.
  unfold insert_user_role. rewrite user_roles_insert_check. intros H.
  destruct (is_admin d s); cbn [bind guard] in H; [|discriminate].
  destruct (guard (negb (existsb (fun x => ur_id x =? g) _)) _);
    cbn [bind] in H; [|discriminate].
  destruct (guard (negb (existsb (same_user_role u r) _)) _);
    cbn [bind] in H; [|discriminate].
  destruct (guard (existsb (Z.eqb u) _) _); cbn [bind] in H; [|discriminate].
  injection H as <-. split; reflexivity.
Qed.

(** X1: an accepted insert into [user_roles] comes from an administrator;
    afterwards [has_role] answers true for the inserted user and role, answers
    as before for every other user and role, and the other tables are as
    they were. *)
Theorem has_role_after_insert
        (s : session) (g : uuid) (now : timestamptz) (d d' : db)
        (u : uuid) (r : app_role) :
  insert_user_role s g now d u r = Ok d' ->
  is_admin d s = true
  /\ has_role d' (Some u) r = true
  /\ (forall u' r', (u', r') <> (u, r) ->
        has_role d' (Some u') r' = has_role d (Some u') r')
  /\ stores d' = stores d /\ ratings d' = ratings d
  /\ auth_users d' = auth_users d.
Proof.
  intros H. apply insert_user_role_inv in H. destruct H as [Hadm ->].
  split; [exact Hadm|]. unfold has_role. simpl. split; [|split].
  - rewrite existsb_app. simpl.
    rewrite Z.eqb_refl, app_role_eqb_refl. apply orb_true_r.
  - intros u' r' Hne. rewrite existsb_app. simpl.
    destruct ((u' =? u) && app_role_eqb r r') eqn:E.
    + apply andb_true_iff in E. destruct E as [Eu Er].
      apply Z.eqb_eq in Eu. apply app_role_eqb_eq in Er. subst. congruence.
    + now rewrite !orb_false_r.
  - repeat split.
Qed.

Lemma has_role_after_insert_witness :
  insert_user_role (authenticated 1) 504 4 db0 3 store_owner = Ok db_two_roles
  /\ has_role db_two_roles (Some 3) store_owner = true
  /\ has_role db_two_roles (Some 4) store_owner = has_role db0 (Some 4) store_owner.
Proof.
  assert (H : insert_user_role (authenticated 1) 504 4 db0 3 store_owner
              = Ok db_two_roles) by reflexivity.
  split; [exact H|].
  destruct (has_role_after_insert _ _ _ _ _ _ _ H) as [_ [Hin [Hout _]]].
  split; [exact Hin|]. apply Hout. discriminate.
Defined.

Lemma insert_user_role_wf_witness :
  user_roles_wf (user_roles db0)
  /\ insert_user_role (authenticated 1) 504 4 db0 3 store_owner = Ok db_two_roles
  /\ user_roles_wf (user_roles db_two_roles).
Proof.
  assert (Hwf : user_roles_wf (user_roles db0)).
  { split; simpl; repeat constructor; simpl; intuition discriminate. }
  assert (H : insert_user_role (authenticated 1) 504 4 db0 3 store_owner
              = Ok db_two_roles) by reflexivity.
  split; [exact Hwf|]. split; [exact H|].
  exact (insert_user_role_wf _ _ _ _ _ _ _ Hwf H).
Defined.

Lemma maybeSingle_some {A : Type} (l : list A) (x : A) :
  maybeSingle l = Ok (Some x) <-> l = [x].
Proof.
  destruct l as [|a [|b t]]; simpl; split; intros H;
    try discriminate; try (injection H as ->; reflexivity).
Qed.

(** X2: signed in as [u], [fetchUserRole] never changes the database, and it
    sets [userRole] to a role exactly when [u] has one role row and no more,
    namely to the role of that row. *)
Theorem fetchUserRole_read_only
        (g : uuid) (now : timestamptz) (d : db) (u : uuid) :
  snd (fetchUserRole (authenticated u) g now d u) = d
  /\ forall r,
       fst (fetchUserRole (authenticated u) g now d u) = Some r
       <-> exists row,
             filter (fun x => ur_user_id x =? u) (user_roles d) = [row]
             /\ ur_role row = r.
Proof.
  unfold fetchUserRole. rewrite select_own_roles.
  destruct (filter (fun x => ur_user_id x =? u) (user_roles d))
    as [|a [|b t]] eqn:E; simpl.
  - assert (H0 : count_roles_of d u = 0)
      by (unfold count_roles_of, COUNT; now rewrite E).
    destruct (assignDefaultRole_without_role g now d u H0) as [_ ->].
    simpl. split; [reflexivity|]. intros r. split; [discriminate|].
    intros [row [Hrow _]]. discriminate.
  - split; [reflexivity|]. intros r. split.
    + intros H. injection H as <-. eauto.
    + intros [row [Hrow <-]]. now injection Hrow as <-.
  - split; [reflexivity|]. intros r. split; [discriminate|].
    intros [row [Hrow _]]. discriminate.
Qed.

Lemma SignupForm_onSubmit_new_user_witness :
  (authenticated 4 = anon
   \/ (authenticated 4 = authenticated 4 /\ count_roles_of db0 4 = 0))
  /\ SignupForm_onSubmit (authenticated 4) 900 200 db0 4
     = (system_administrator, db0).
Proof.
  assert (H : authenticated 4 = anon
              \/ (authenticated 4 = authenticated 4 /\ count_roles_of db0 4 = 0))
    by (right; split; reflexivity).
  split; [exact H|].
  exact (SignupForm_onSubmit_new_user (authenticated 4) 900 200 db0 4 H).
Defined.

(** One request of a client without a role leaves the database as it was
    and the client without a role. *)
Lemma client_step_without_role
      (g : uuid) (now : timestamptz) (d : db) (c : client) :
  without_role d c ->
  snd (client_step g now c d) = d /\ without_role d (fst (client_step g now c d)).
Proof.
  intros [H0 Hpc]. unfold client_step, without_role.
  destruct c as [cu cp]. simpl in *.
  pose proof (no_role_not_admin d cu H0) as Hadm.
  destruct Hpc as [-> | [-> | ->]]; simpl.
  - split; [reflexivity|]. split; [exact H0|]. right. left.
    now destruct (assignDefaultRole_without_role g now d cu H0) as [-> _].
  - rewrite (insert_user_role_denied g now d _ cu _ Hadm). simpl.
    split; [reflexivity|]. split; [exact H0|]. right. right. reflexivity.
  - split; [reflexivity|]. split; [exact H0|]. right. right. reflexivity.
Qed.

Lemma Forall_update_nth {A : Type} (P : A -> Prop) (n : nat) (f : A -> A)
      (l : list A) :
  Forall P l -> (forall x, P x -> P (f x)) -> Forall P (update_nth n f l).
Proof.
  intros Hl Hf. revert n. induction Hl as [|x t Hx Ht IH]; intros n.
  - destruct n; constructor.
  - destruct n; simpl; constructor; auto.
Qed.

Lemma nth_error_Forall {A : Type} (P : A -> Prop) (l : list A) (n : nat) (x : A) :
  Forall P l -> nth_error l n = Some x -> P x.
Proof.
  intros Hl. revert n. induction Hl as [|y t Hy Ht IH]; intros [|n]; simpl;
    intros H; try discriminate.
  - now injection H as <-.
  - now apply (IH n).
Qed.

Lemma run_slot_without_role (sl : slot) (clients : list client) (d : db) :
  Forall (without_role d) clients ->
  exists clients', run_slot sl (clients, d) = (clients', d)
                   /\ Forall (without_role d) clients'.
Proof.
  intros H. unfold run_slot. simpl fst. simpl snd.
  destruct (nth_error clients (sl_client sl)) as [c|] eqn:En.
  - pose proof (nth_error_Forall _ _ _ _ H En) as Hc.
    destruct (client_step_without_role (sl_uuid sl) (sl_now sl) d c Hc)
      as [Hd Hc'].
    destruct (client_step (sl_uuid sl) (sl_now sl) c d) as [c' d'].
    simpl in Hd, Hc'. subst d'. eexists. split; [reflexivity|].
    apply Forall_update_nth; [exact H | intros _ _; exact Hc'].
  - exists clients. split; [reflexivity | exact H].
Qed.

(** X3: however the requests of any number of first-time logins are
    interleaved, as long as none of the users has a role row, the database
    is never changed and no client is ever given a role: each one is still
    waiting, has picked the administrator role, or has returned null. *)
Theorem bootstraps_never_write
        (schedule : list slot) (clients : list client) (d : db) :
  Forall (without_role d) clients ->
  snd (run schedule (clients, d)) = d
  /\ Forall (without_role d) (fst (run schedule (clients, d)))
  /\ forall c r, In c (fst (run schedule (clients, d))) ->
                 cl_pc c <> returned (Some r).
Proof.
  intros H.
  assert (Hrun : snd (run schedule (clients, d)) = d
                 /\ Forall (without_role d) (fst (run schedule (clients, d)))).
  { unfold run. revert clients H.
    induction schedule as [|sl t IH]; intros clients H; simpl.
    - split; [reflexivity | exact H].
    - destruct (run_slot_without_role sl clients d H) as [cs [-> Hcs]].
      now apply IH. }
  destruct Hrun as [Hd Hall]. split; [exact Hd|]. split; [exact Hall|].
  intros c r Hin Hpc. rewrite Forall_forall in Hall.
  destruct (Hall c Hin) as [_ [E | [E | E]]]; congruence.
Qed.

Lemma bootstraps_never_write_witness :
  Forall (without_role db_fresh) two_clients
  /\ snd (run alternating (two_clients, db_fresh)) = db_fresh.
Proof.
  assert (H : Forall (without_role db_fresh) two_clients).
  { repeat constructor. }
  split; [exact H|].
  exact (proj1 (bootstraps_never_write alternating two_clients db_fresh H)).
Defined.

(** ** The trigger and the constraints of [ratings] *)

(** What one row of the trigger's UPDATE can become. *)
Lemma update_store_rating_row
      (s : session) (now : timestamptz) (d : db) (sid : option uuid)
      (set_ : store_row -> result store_row) (st st' : store_row) :
  (forall x y, set_ x = Ok y ->
     st_id y = st_id x /\ st_user_id y = st_user_id x /\ st_name y = st_name x
     /\ st_email y = st_email x /\ st_address y = st_address x
     /\ st_created_at y = st_created_at x) ->
  update_store_row s now d (fun x => sql_eq sid (st_id x)) set_ st = Ok st' ->
  st_id st' = st_id st /\ st_user_id st' = st_user_id st
  /\ st_name st' = st_name st /\ st_email st' = st_email st
  /\ st_address st' = st_address st /\ st_created_at st' = st_created_at st
  /\ (sql_eq sid (st_id st) = false -> st' = st)
  /\ (may_update_store d s st = false -> st' = st).
Proof.
  intros Hset H. unfold update_store_row in H.
  rewrite stores_update_using in H.
  destruct (sql_eq sid (st_id st)) eqn:Ew; cbn [andb] in H;
    [|injection H as <-; repeat split].
  destruct (rls_using stores_policies SELECT d s st); cbn [andb] in H;
    [|injection H as <-; repeat split; discriminate].
  destruct (may_update_store d s st) eqn:Em;
    [|injection H as <-; repeat split; discriminate].
  destruct (set_ st) as [st1|] eqn:Es; cbn [bind] in H; [|discriminate].
  destruct (guard (rls_with_check _ _ _ _ _) _); cbn [bind] in H;
    [|discriminate].
  destruct (guard (stores_check _) _); cbn [bind] in H; [|discriminate].
  injection H as <-. destruct (Hset st st1 Es) as [H1 [H2 [H3 [H4 [H5 H6]]]]].
  simpl. repeat split; try assumption; discriminate.
Qed.

Lemma update_store_rating_rows
      (s : session) (now : timestamptz) (NEW OLD : option rating_row)
      (d d' : db) :
  update_store_rating s now NEW OLD d = Ok d' ->
  Forall2 (fun st st' =>
             st_id st' = st_id st /\ st_user_id st' = st_user_id st
             /\ st_name st' = st_name st /\ st_email st' = st_email st
             /\ st_address st' = st_address st
             /\ st_created_at st' = st_created_at st
             /\ (sql_eq (COALESCE (option_map rt_store_id NEW)
                                  (option_map rt_store_id OLD)) (st_id st) = false ->
                 st' = st)
             /\ (may_update_store d s st = false -> st' = st))
          (stores d) (stores d').
Proof.
  unfold update_store_rating, update_stores. intros H.
  destruct (map_result _ (stores d)) as [rows|] eqn:E; cbn [bind] in H;
    [|discriminate].
  injection H as <-. simpl. apply map_result_Forall2 in E.
  induction E as [|st st' t t' Hst Ht IH]; constructor; [|exact IH].
  refine (update_store_rating_row s now d _ _ st st' _ Hst).
  intros x y Hxy.
  destruct (to_decimal_2_1 _); cbn [bind] in Hxy; [|discriminate].
  destruct (to_integer _); cbn [bind] in Hxy; [|discriminate].
  injection Hxy as <-. repeat split.
Qed.

(** X4: the aggregation trigger only ever writes [average_rating],
    [total_ratings] and [updated_at], and only in stores whose id is the
    store of the rating row: the tables [ratings], [user_roles] and
    [auth.users] are as before, every store keeps its id, owner, name, email,
    address and [created_at], and every store with another id, or that the
    session may not update, keeps its whole row. *)
Theorem trigger_changes_only_aggregates
        (s : session) (now : timestamptz) (NEW OLD : option rating_row)
        (d d' : db) :
  update_store_rating s now NEW OLD d = Ok d' ->
  ratings d' = ratings d /\ user_roles d' = user_roles d
  /\ auth_users d' = auth_users d
  /\ Forall2 (fun st st' =>
                st_id st' = st_id st /\ st_user_id st' = st_user_id st
                /\ st_name st' = st_name st /\ st_email st' = st_email st
                /\ st_address st' = st_address st
                /\ st_created_at st' = st_created_at st
                /\ (sql_eq (COALESCE (option_map rt_store_id NEW)
                                     (option_map rt_store_id OLD)) (st_id st)
                    = false -> st' = st)
                /\ (may_update_store d s st = false -> st' = st))
             (stores d) (stores d').
Proof.
  intros H. destruct (update_store_rating_frame _ _ _ _ _ _ H) as [Hr [Hu Ha]].
  repeat split; trivial. exact (update_store_rating_rows s now NEW OLD d d' H).
Qed.

Lemma trigger_changes_only_aggregates_witness :
  exists d',
    update_store_rating (authenticated 1) 300 (Some rating900) None db_two_stores
    = Ok d'
    /\ ratings d' = ratings db_two_stores
    /\ map st_name (stores d') = map st_name (stores db_two_stores).
Proof.
  eexists. assert (H : update_store_rating (authenticated 1) 300 (Some rating900)
                         None db_two_stores = Ok _) by reflexivity.
  split; [exact H|].
  destruct (trigger_changes_only_aggregates _ _ _ _ _ _ H) as [Hr _].
  split; [exact Hr | reflexivity].
Defined.

Lemma update_store_rating_ids
      (s : session) (now : timestamptz) (NEW OLD : option rating_row)
      (d d' : db) :
  update_store_rating s now NEW OLD d = Ok d' ->
  map st_id (stores d') = map st_id (stores d).
Proof.
  intros H. apply update_store_rating_rows in H.
  induction H as [|st st' t t' [Hid _] Ht IH]; simpl; [reflexivity|].
  now rewrite Hid, IH.
Qed.

Lemma existsb_st_id (x : uuid) (l : list store_row) :
  existsb (fun st => st_id st =? x) l = existsb (fun i => i =? x) (map st_id l).
Proof. induction l as [|a t IH]; simpl; [reflexivity | now rewrite IH]. Qed.

Lemma ratings_fkeys_after_trigger
      (s : session) (now : timestamptz) (NEW OLD : option rating_row)
      (d d' : db) (r : rating_row) :
  update_store_rating s now NEW OLD d = Ok d' ->
  ratings_fkeys d' r = ratings_fkeys d r.
Proof.
  intros H. unfold ratings_fkeys.
  destruct (update_store_rating_frame s now NEW OLD d d' H) as [_ [_ ->]].
  rewrite !existsb_st_id, (update_store_rating_ids s now NEW OLD d d' H).
  reflexivity.
Qed.

(** The constraints carry over a trigger run on a table that has them. *)
Lemma ratings_constraints_after_trigger
      (s : session) (now : timestamptz) (NEW OLD : option rating_row)
      (d d' : db) (rs : list rating_row) :
  ratings_wf rs ->
  Forall (fun r => ratings_check r = true) rs ->
  Forall (fun r => ratings_fkeys d r = true) rs ->
  update_store_rating s now NEW OLD (set_ratings d rs) = Ok d' ->
  ratings_constraints d'.
Proof.
  intros Hwf Hc Hfk H. unfold ratings_constraints.
  destruct (update_store_rating_frame _ _ _ _ _ _ H) as [Hr _].
  simpl in Hr. rewrite Hr. split; [exact Hwf|]. split; [exact Hc|].
  rewrite Forall_forall in *. intros r Hin.
  rewrite (ratings_fkeys_after_trigger _ _ _ _ _ _ r H). now apply Hfk.
Qed.

Lemma insert_rating_row_inv
      (s : session) (now : timestamptz) (d d' : db) (row : rating_row) :
  insert_rating_row s now d row = Ok d' ->
  ratings_pkey_free (ratings d) (rt_id row) = true
  /\ ratings_user_store_free (ratings d) (rt_user_id row) (rt_store_id row) = true
  /\ ratings_fkeys d row = true
  /\ update_store_rating s now (Some row) None
       (set_ratings d (ratings d ++ [row])) = Ok d'.
Proof.
  unfold insert_rating_row. intros H.
  destruct (ratings_pkey_free _ _); cbn [bind guard] in H; [|discriminate].
  destruct (ratings_user_store_free _ _ _); cbn [bind guard] in H;
    [|discriminate].
  destruct (ratings_fkeys d row); cbn [bind guard] in H; [|discriminate].
  repeat split. exact H.
Qed.

Lemma update_rating_row_inv
      (s : session) (now : timestamptz) (d d' : db) (old : rating_row)
      (p : rating_payload) :
  update_rating_row s now d old p = Ok d' ->
  exists new,
    new = {| rt_id := rt_id old; rt_user_id := pl_user_id p;
             rt_store_id := pl_store_id p; rt_rating := pl_rating p;
             rt_created_at := rt_created_at old; rt_updated_at := now |}
    /\ may_write_rating d s (pl_user_id p) = true
    /\ ratings_check new = true
    /\ ratings_user_store_free
         (filter (fun r => negb (rt_id r =? rt_id old)) (ratings d))
         (pl_user_id p) (pl_store_id p) = true
    /\ ratings_fkeys d new = true
    /\ update_store_rating s now (Some new) (Some old)
         (set_ratings d (map (fun r => if rt_id r =? rt_id old then new else r)
                             (ratings d))) = Ok d'.
Proof.
  unfold update_rating_row. rewrite ratings_update_check. intros H.
  eexists. split; [reflexivity|].
  destruct (may_write_rating d s _) eqn:Ew; cbn [bind guard] in H;
    [|discriminate].
  destruct (ratings_check _) eqn:Ec; cbn [bind guard] in H; [|discriminate].
  destruct (ratings_user_store_free _ _ _) eqn:Eu; cbn [bind guard] in H;
    [|discriminate].
  destruct (ratings_fkeys d _) eqn:Ef; cbn [bind guard] in H; [|discriminate].
  repeat split; assumption.
Qed.

Lemma Forall_replace {A : Type} (P : A -> Prop) (c : A -> bool) (new : A)
      (l : list A) :
  Forall P l -> P new -> Forall P (map (fun r => if c r then new else r) l).
Proof.
  intros Hl Hn. induction Hl as [|x t Hx Ht IH]; simpl; constructor; trivial.
  now destruct (c x).
Qed.

Lemma Forall_filter {A : Type} (P : A -> Prop) (f : A -> bool) (l : list A) :
  Forall P l -> Forall P (filter f l).
Proof.
  intros Hl. induction Hl as [|x t Hx Ht IH]; simpl; [constructor|].
  destruct (f x); [constructor|]; trivial.
Qed.

Lemma insert_rating_row_constraints
      (s : session) (now : timestamptz) (d d' : db) (row : rating_row) :
  ratings_constraints d -> ratings_check row = true ->
  insert_rating_row s now d row = Ok d' -> ratings_constraints d'.
Proof.
  intros [Hwf [Hc Hfk]] Hrow H. apply insert_rating_row_inv in H.
  destruct H as [Hp [Hu [Hf H]]].
  apply (ratings_constraints_after_trigger _ _ _ _ _ _ _
           (ratings_wf_snoc _ _ Hwf Hp Hu)) in H; trivial;
    apply Forall_app; split; trivial; repeat constructor; trivial.
Qed.

Lemma update_rating_row_constraints
      (s : session) (now : timestamptz) (d d' : db) (old : rating_row)
      (p : rating_payload) :
  ratings_constraints d ->
  update_rating_row s now d old p = Ok d' -> ratings_constraints d'.
Proof.
  intros [Hwf [Hc Hfk]] H. apply update_rating_row_inv in H.
  destruct H as [new [Hnew [_ [Hcn [Hu [Hf H]]]]]].
  assert (Hwf' : ratings_wf (map (fun r => if rt_id r =? rt_id old then new else r)
                                 (ratings d))).
  { apply ratings_wf_replace; trivial; subst new; simpl; trivial. }
  apply (ratings_constraints_after_trigger _ _ _ _ _ _ _ Hwf') in H; trivial;
    now apply Forall_replace.
Qed.

(** X5: every statement on [ratings] keeps the table's constraints: ids and
    (user, store) pairs stay unique, every value stays within 1..5, and every
    row keeps referring to an existing user and an existing store. *)
Theorem rating_statements_keep_constraints
        (s : session) (g : uuid) (now : timestamptz) (d d' : db)
        (p : rating_payload) (onConflict : option conflict_target) (rid : uuid) :
  ratings_constraints d ->
  (insert_rating s g now d p = Ok d' -> ratings_constraints d')
  /\ (upsert_rating s g now d p onConflict = Ok d' -> ratings_constraints d')
  /\ (update_rating s now d rid p = Ok d' -> ratings_constraints d')
  /\ (delete_rating s now d rid = Ok d' -> ratings_constraints d').
Proof.
  intros Hd. split; [|split; [|split]].
  - unfold insert_rating. intros H.
    destruct (to_integer (pl_rating p)); cbn [bind] in H; [|discriminate].
    destruct (guard (rls_with_check _ _ _ _ _) _); cbn [bind] in H;
      [|discriminate].
    destruct (ratings_check (new_rating g now p)) eqn:Ec; cbn [bind guard] in H;
      [|discriminate].
    exact (insert_rating_row_constraints _ _ _ _ _ Hd Ec H).
  - unfold upsert_rating. intros H.
    destruct (to_integer (pl_rating p)); cbn [bind] in H; [|discriminate].
    destruct (guard (rls_with_check _ _ _ _ _) _); cbn [bind] in H;
      [|discriminate].
    destruct (ratings_check (new_rating g now p)) eqn:Ec; cbn [bind guard] in H;
      [|discriminate].
    destruct (arbiter _ _ _) as [old|].
    + destruct (guard _ insufficient_privilege); cbn [bind] in H;
        [|discriminate].
      exact (update_rating_row_constraints _ _ _ _ _ _ Hd H).
    + exact (insert_rating_row_constraints _ _ _ _ _ Hd Ec H).
  - unfold update_rating. intros H.
    destruct (find _ (ratings d)) as [old|]; [|now injection H as <-].
    destruct (_ && _); [|now injection H as <-].
    destruct (to_integer (pl_rating p)); cbn [bind] in H; [|discriminate].
    exact (update_rating_row_constraints _ _ _ _ _ _ Hd H).
  - unfold delete_rating. intros H.
    destruct (find _ (ratings d)) as [old|]; [|now injection H as <-].
    destruct (_ && _); [|now injection H as <-].
    destruct Hd as [[Hid Hkey] [Hc Hfk]].
    apply (ratings_constraints_after_trigger _ _ _ _ _ _ _) in H; trivial.
    + split; now apply NoDup_map_filter.
    + now apply Forall_filter.
    + now apply Forall_filter.
Qed.

Lemma rating_statements_keep_constraints_witness :
  ratings_constraints db0
  /\ insert_rating (authenticated 3) 900 200 db0
       {| pl_user_id := 3; pl_store_id := 10; pl_rating := 4 |} = Ok db1
  /\ ratings_constraints db1.
Proof.
  assert (H0 : ratings_constraints db0).
  { repeat split; simpl; constructor. }
  assert (H : insert_rating (authenticated 3) 900 200 db0
                {| pl_user_id := 3; pl_store_id := 10; pl_rating := 4 |} = Ok db1)
    by reflexivity.
  split; [exact H0|]. split; [exact H|].
  exact (proj1 (rating_statements_keep_constraints (authenticated 3) 900 200
                  db0 db1 _ None 0 H0) H).
Defined.

(** X6: when an administrator inserts, updates or deletes a rating row, the
    trigger leaves the aggregates of the store of the new row (of the deleted
    row, for a delete) equal to the count and the rounded mean of that
    store's rating rows. *)
Theorem administrator_rating_keeps_aggregates
        (s : session) (now : timestamptz) (d : db) :
  is_admin d s = true ->
  (forall g p d',
     insert_rating s g now d p = Ok d' ->
     ratings d' = ratings d ++ [new_rating g now p]
     /\ aggregates_current d' (pl_store_id p))
  /\ (forall rid p old d',
        find (fun r => rt_id r =? rid) (ratings d) = Some old ->
        update_rating s now d rid p = Ok d' ->
        aggregates_current d' (pl_store_id p))
  /\ (forall rid old d',
        find (fun r => rt_id r =? rid) (ratings d) = Some old ->
        delete_rating s now d rid = Ok d' ->
        ratings d' = filter (fun r => negb (rt_id r =? rid)) (ratings d)
        /\ aggregates_current d' (rt_store_id old)).
Proof.
  intros Hadm. split; [|split].
  - intros g p d' H.
    apply (insert_rating_recomputes s g now d d' p
             (is_admin_authenticated d s Hadm)); [|exact H].
    intros st _ _. now apply admin_may_update_store.
  - intros rid p old d' Hf H.
    exact (update_rating_recomputes s now d d' rid p old Hadm Hf H).
  - intros rid old d' Hf H.
    exact (delete_rating_recomputes s now d d' rid old Hadm Hf H).
Qed.

Lemma administrator_rating_keeps_aggregates_witness :
  is_admin db0 (authenticated 1) = true
  /\ exists d',
       insert_rating (authenticated 1) 900 200 db0
         {| pl_user_id := 3; pl_store_id := 10; pl_rating := 4 |} = Ok d'
       /\ aggregates_current d' 10.
Proof.
  assert (Hadm : is_admin db0 (authenticated 1) = true) by reflexivity.
  split; [exact Hadm|]. eexists.
  assert (H : insert_rating (authenticated 1) 900 200 db0
                {| pl_user_id := 3; pl_store_id := 10; pl_rating := 4 |} = Ok _)
    by reflexivity.
  split; [exact H|].
  destruct (administrator_rating_keeps_aggregates (authenticated 1) 200 db0 Hadm)
    as [Hins _].
  exact (proj2 (Hins _ _ _ H)).
Defined.

Lemma SUM_ratings_bounds (rs : list rating_row) :
  Forall (fun r => ratings_check r = true) rs ->
  COUNT rs <= SUM (map rt_rating rs) <= 5 * COUNT rs.
Proof.
  unfold COUNT. induction 1 as [|r t Hr Ht IH].
  - simpl. lia.
  - unfold ratings_check in Hr. apply andb_true_iff in Hr.
    destruct Hr as [H1 H5]. apply Z.leb_le in H1, H5.
    change (SUM (map rt_rating (r :: t)))
      with (rt_rating r + SUM (map rt_rating t)).
    change (List.length (r :: t)) with (S (List.length t)).
    rewrite Nat2Z.inj_succ. lia.
Qed.

(** X7: over rating rows that satisfy the CHECK constraint, the average the
    trigger computes always fits [DECIMAL(2,1)]: it is 0.0 for no row and
    between 1.0 and 5.0 otherwise, and it is the mean rounded to the nearest
    tenth, a tie going up. *)
Theorem trigger_average_within_range (rs : list rating_row) :
  Forall (fun r => ratings_check r = true) rs ->
  exists a,
    to_decimal_2_1
      (match COALESCE (AVG (map rt_rating rs)) (Some numeric_zero) with
       | Some x => x
       | None => numeric_zero
       end) = Ok a
    /\ (rs = [] -> a = 0)
    /\ (rs <> [] ->
        10 <= a <= 50
        /\ 2 * COUNT rs * a - COUNT rs <= 20 * SUM (map rt_rating rs)
           < 2 * COUNT rs * a + COUNT rs).
Proof.
  intros H. pose proof (SUM_ratings_bounds rs H) as Hs.
  destruct rs as [|r t].
  - exists 0. split; [reflexivity|]. split; [reflexivity|].
    intros Hne. exfalso. now apply Hne.
  - unfold to_decimal_2_1.
    change (AVG (map rt_rating (r :: t)))
      with (Some {| num := SUM (map rt_rating (r :: t));
                    den := Pos.of_nat (List.length (map rt_rating (r :: t))) |}).
    cbn [COALESCE num den]. rewrite length_map.
    change (List.length (r :: t)) with (S (List.length t)).
    rewrite Zpos_of_nat_S.
    unfold COUNT in *.
    change (List.length (r :: t)) with (S (List.length t)) in Hs |- *.
    set (n := Z.of_nat (S (List.length t))) in *.
    set (sm := SUM (map rt_rating (r :: t))) in *.
    assert (Hn : 0 < n) by (unfold n; lia).
    pose proof (round_half_away_nearest (10 * sm) n ltac:(lia) Hn) as Hr.
    set (a := round_half_away (10 * sm) n) in *.
    clearbody a sm n.
    assert (Ha : 10 <= a <= 50).
    { split.
      - destruct (Z_lt_le_dec a 10) as [Hlt|]; [|assumption].
        assert (n * a <= n * 9) by (apply Z.mul_le_mono_nonneg_l; lia). lia.
      - destruct (Z_lt_le_dec 50 a) as [Hlt|]; [|assumption].
        assert (n * 51 <= n * a) by (apply Z.mul_le_mono_nonneg_l; lia). lia. }
    replace (Z.abs a <=? 99) with true
      by (symmetry; apply Z.leb_le; lia).
    exists a. split; [reflexivity|]. split; [discriminate|].
    intros _. split; [exact Ha | lia].
Qed.

Lemma trigger_average_within_range_witness :
  Forall (fun r => ratings_check r = true) [rating900]
  /\ exists a,
       to_decimal_2_1
         (match COALESCE (AVG (map rt_rating [rating900])) (Some numeric_zero) with
          | Some x => x
          | None => numeric_zero
          end) = Ok a
       /\ 10 <= a <= 50.
Proof.
  assert (H : Forall (fun r => ratings_check r = true) [rating900])
    by (repeat constructor).
  split; [exact H|].
  destruct (trigger_average_within_range [rating900] H) as [a [Ha [_ Hb]]].
  exists a. split; [exact Ha|]. apply Hb. discriminate.
Defined.

(** ** Who can do what *)

Lemma is_admin_anon (d : db) : is_admin d anon = false.
Proof. apply has_role_anon. Qed.

Lemma may_write_rating_anon (d : db) (u : uuid) : may_write_rating d anon u = false.
Proof.
  unfold may_write_rating. rewrite is_admin_anon. simpl.
  now rewrite andb_false_r.
Qed.

(** X8: a request without a signed-in user reads no row of any table and
    changes nothing: selects come back empty, inserts and upserts come back
    with an error, updates and deletes find no row, and the dashboards'
    loaders and [submitRating] return at once. *)
Theorem anon_reads_and_writes_nothing (d : db) :
  (forall w, select_user_roles anon d w = [])
  /\ (forall w, select_stores anon d w = [])
  /\ (forall sid, ratings_of_store anon d sid = [])
  /\ (forall u, select_ratings_of_user anon d u = [])
  /\ (forall g now u r,
        insert_user_role anon g now d u r = Err insufficient_privilege)
  /\ (forall g now p, insert_store anon g now d p = Err insufficient_privilege)
  /\ (forall g now p, exists e, insert_rating anon g now d p = Err e)
  /\ (forall g now p oc, exists e, upsert_rating anon g now d p oc = Err e)
  /\ (forall now rid p, update_rating anon now d rid p = Ok d)
  /\ (forall now rid, delete_rating anon now d rid = Ok d)
  /\ (forall now sid p, update_store anon now d sid p = Ok d)
  /\ (forall g now store v, submitRating anon g now d store v = (None, d))
  /\ fetchStoreInfo anon d = None
  /\ fetchRatings anon d = None
  /\ (forall name_le, fetchStores name_le anon d = None).
Proof.
  repeat match goal with |- _ /\ _ => split end.
  - intros w. unfold select_user_roles. apply filter_none_in. intros r _.
    rewrite user_roles_select_using, is_admin_anon. reflexivity.
  - intros w. unfold select_stores. apply filter_none_in. intros r _.
    rewrite stores_select_using, is_admin_anon. reflexivity.
  - intros sid. apply ratings_of_store_anon.
  - intros u. unfold select_ratings_of_user. apply filter_none_in. intros r _.
    rewrite ratings_select_using, is_admin_anon. reflexivity.
  - intros g now u r. apply insert_user_role_denied, is_admin_anon.
  - intros g now p. unfold insert_store. unfold rls_with_check, applies. simpl.
    rewrite is_admin_anon. reflexivity.
  - intros g now p. apply insert_rating_denied, may_write_rating_anon.
  - intros g now p oc. apply upsert_rating_denied, may_write_rating_anon.
  - intros now rid p. unfold update_rating.
    destruct (find _ (ratings d)) as [old|]; [|reflexivity].
    rewrite ratings_select_using, is_admin_anon. reflexivity.
  - intros now rid. unfold delete_rating.
    destruct (find _ (ratings d)) as [old|]; [|reflexivity].
    rewrite ratings_select_using, is_admin_anon. reflexivity.
  - intros now sid p. unfold update_store. apply update_stores_foreign.
    intros st _ _. unfold may_update_store. now rewrite is_admin_anon.
  - intros g now store v. unfold submitRating. simpl. now destruct store.
  - reflexivity.
  - reflexivity.
  - reflexivity.
Qed.

(** X9: no policy lets anybody but an administrator delete a rating row: for
    every other session, a normal user asking for their own row included, the
    DELETE finds no row, reports nothing and changes nothing. *)
Theorem delete_rating_administrators_only
        (s : session) (now : timestamptz) (d : db) (rid : uuid) :
  is_admin d s = false -> delete_rating s now d rid = Ok d.
Proof.
  intros H. unfold delete_rating.
  destruct (find _ (ratings d)) as [old|]; [|reflexivity].
  rewrite ratings_delete_using, H. now rewrite andb_false_r.
Qed.

Lemma delete_rating_administrators_only_witness :
  is_admin db1 (authenticated 3) = false
  /\ find (fun r => rt_id r =? 900) (ratings db1) = Some rating900
  /\ rt_user_id rating900 = 3
  /\ delete_rating (authenticated 3) 300 db1 900 = Ok db1.
Proof.
  assert (H : is_admin db1 (authenticated 3) = false) by reflexivity.
  split; [exact H|]. split; [reflexivity|]. split; [reflexivity|].
  exact (delete_rating_administrators_only (authenticated 3) 300 db1 900 H).
Defined.

(** ** Creating and finding a store *)


(** The CHECK constraints count characters, not bytes: a name of nineteen
    characters is refused although its UTF-8 encoding has twenty bytes
    (U+017B takes two), and a name of twenty characters is accepted with or
    without such a letter. *)
Example stores_check_counts_characters :
  let row name := new_store 12 400
                    {| sp_user_id := 2; sp_name := name;
                       sp_email := text_of_ascii "shop@example.org";
                       sp_address := text_of_ascii "1 Main Street" |} in
  stores_check (row (379%N :: text_of_ascii "abka Corner Stores")) = false
  /\ stores_check (row (379%N :: text_of_ascii "abka Corner Stores 2")) = true
  /\ stores_check (row (text_of_ascii "Corner Grocery Store")) = true
  /\ stores_check (row (text_of_ascii "Corner Grocery Stor")) = false.
Proof. repeat split. Qed.


Lemma select_stores_authenticated (d : db) (u : uuid) (w : store_row -> bool) :
  select_stores (authenticated u) d w = filter w (stores d).
Proof.
  unfold select_stores. apply filter_ext. intros r.
  rewrite stores_select_using. reflexivity.
Qed.

Lemma single_ok {A : Type} (l : list A) (x : A) : single l = Ok x <-> l = [x].
Proof.
  destruct l as [|a [|b t]]; simpl; split; intros H;
    try discriminate; try (injection H as ->; reflexivity).
Qed.

(** X11: signed in as [u], [fetchStoreInfo] sets the store exactly when [u]
    owns one store and no more, and sets it to that store; an owner of no
    store and an owner of two stores alike are left without one. *)
Theorem fetchStoreInfo_exactly_one (d : db) (u : uuid) (st : store_row) :
  fetchStoreInfo (authenticated u) d = Some st
  <-> filter (fun x => st_user_id x =? u) (stores d) = [st].
Proof.
  unfold fetchStoreInfo. cbn [auth_uid]. rewrite select_stores_authenticated.
  rewrite <- single_ok.
  destruct (single (filter (fun x => st_user_id x =? u) (stores d)));
    split; intros H; try discriminate; now injection H as <-.
Qed.

(** X12: after an administrator has created a store for owner [o], the
    owner's dashboard finds it, with aggregates 0.0 and 0, when [o] owned no
    store before; when [o] already owned one, the dashboard finds none at
    all. *)
Theorem created_store_is_found
        (s : session) (g : uuid) (now : timestamptz) (d d' : db)
        (data : store_payload) :
  createStore s g now d data = (toast_success, d') ->
  (filter (fun x => st_user_id x =? sp_user_id data) (stores d) = [] ->
   fetchStoreInfo (authenticated (sp_user_id data)) d'
   = Some (new_store g now data)
   /\ st_average_rating (new_store g now data) = Some 0
   /\ st_total_ratings (new_store g now data) = Some 0)
  /\ (filter (fun x => st_user_id x =? sp_user_id data) (stores d) <> [] ->
      fetchStoreInfo (authenticated (sp_user_id data)) d' = None).
Proof.
  intros H.
  assert (Hd : d' = set_stores d (stores d ++ [new_store g now data])).
  { unfold createStore in H.
    destruct (insert_store s g now d data) as [d1|] eqn:E; [|discriminate].
    injection H as <-. unfold insert_store in E.
    destruct (guard (rls_with_check _ _ _ _ _) _); cbn [bind] in E;
      [|discriminate].
    destruct (guard (stores_check _) _); cbn [bind] in E; [|discriminate].
    destruct (guard (negb _) _); cbn [bind] in E; [|discriminate].
    destruct (guard (existsb _ _) _); cbn [bind] in E; [|discriminate].
    now injection E as <-. }
  subst d'. unfold fetchStoreInfo. cbn [auth_uid].
  rewrite select_stores_authenticated. cbn [stores set_stores].
  rewrite filter_app. simpl. rewrite Z.eqb_refl. split.
  - intros ->. simpl. repeat split.
  - intros Hne.
    destruct (filter (fun x => st_user_id x =? sp_user_id data) (stores d))
      as [|a t]; [now contradiction Hne|].
    destruct t; reflexivity.
Qed.

Lemma created_store_is_found_witness :
  exists d',
    createStore (authenticated 1) 12 400 db0
      {| sp_user_id := 3; sp_name := text_of_ascii "Harbour Bakery and Cafe";
         sp_email := text_of_ascii "bakery@example.org"; sp_address := text_of_ascii "2 Quay Road" |}
    = (toast_success, d')
    /\ exists st, fetchStoreInfo (authenticated 3) d' = Some st
                  /\ st_id st = 12.
Proof.
  eexists.
  assert (H : createStore (authenticated 1) 12 400 db0
                {| sp_user_id := 3; sp_name := text_of_ascii "Harbour Bakery and Cafe";
                   sp_email := text_of_ascii "bakery@example.org";
                   sp_address := text_of_ascii "2 Quay Road" |} = (toast_success, _))
    by reflexivity.
  split; [exact H|].
  destruct (created_store_is_found _ _ _ _ _ _ H) as [Hnew _].
  destruct (Hnew eq_refl) as [Hf _]. eexists. split; [exact Hf | reflexivity].
Defined.

(** ** The owner's list of ratings *)

Lemma insert_desc_perm (r : rating_row) (l : list rating_row) :
  Permutation (insert_desc r l) (r :: l).
Proof.
  induction l as [|y t IH]; simpl; [reflexivity|].
  destruct (rt_created_at y <? rt_created_at r); [reflexivity|].
  rewrite IH. apply perm_swap.
Qed.

Lemma order_created_at_desc_perm (l : list rating_row) :
  Permutation (order_created_at_desc l) l.
Proof.
  induction l as [|y t IH]; simpl; [constructor|].
  rewrite insert_desc_perm. now constructor.
Qed.

(** X13: signed in as the owner of exactly one store, [fetchRatings] hands
    over the rating rows of that store and no others, each once, newest
    first; signed in as a user with no store or with several, it hands over
    nothing. *)
Theorem fetchRatings_newest_first (d : db) (u : uuid) :
  (forall st,
     filter (fun x => st_user_id x =? u) (stores d) = [st] ->
     exists l,
       fetchRatings (authenticated u) d = Some l
       /\ sorted_desc l
       /\ (forall r, In r l <-> In r (ratings d) /\ rt_store_id r = st_id st)
       /\ Permutation l (ledger d (st_id st)))
  /\ ((forall st, filter (fun x => st_user_id x =? u) (stores d) <> [st]) ->
      fetchRatings (authenticated u) d = None).
Proof.
  split.
  - intros st Hst.
    exists (order_created_at_desc (ledger d (st_id st))). split; [|split; [|split]].
    + apply fetchRatings_own_store. now rewrite select_stores_authenticated.
    + apply order_created_at_desc_sorted.
    + intros r. rewrite order_created_at_desc_in. unfold ledger.
      rewrite filter_In, Z.eqb_eq. reflexivity.
    + apply order_created_at_desc_perm.
  - intros Hnone. unfold fetchRatings. cbn [auth_uid].
    rewrite select_stores_authenticated.
    destruct (single (filter (fun x => st_user_id x =? u) (stores d)))
      as [st|] eqn:E; [|reflexivity].
    apply single_ok in E. now contradiction (Hnone st).
Qed.

(** ** The store directory of a normal user *)

Lemma filter_all {A : Type} (f : A -> bool) (l : list A) :
  (forall x, In x l -> f x = true) -> filter f l = l.
Proof.
  induction l as [|x t IH]; simpl; intros H; [reflexivity|].
  rewrite (H x (or_introl eq_refl)). f_equal. apply IH.
  intros y Hy. apply H. now right.
Qed.

Lemma find_app {A : Type} (f : A -> bool) (l1 l2 : list A) :
  find f (l1 ++ l2) = match find f l1 with
                      | Some x => Some x
                      | None => find f l2
                      end.
Proof.
  induction l1 as [|x t IH]; simpl; [reflexivity|].
  destruct (f x); [reflexivity | exact IH].
Qed.

(** The map built by the [reduce] answers with the rating of the last row of
    the store. *)
Lemma ratingsMap_fold (l : list rating_row) (acc : js_object) (k : uuid) :
  js_get (fold_left (fun acc rating =>
                       js_set acc (rt_store_id rating) (rt_rating rating)) l acc) k
  = match find (fun r => rt_store_id r =? k) (rev l) with
    | Some r => Some (rt_rating r)
    | None => js_get acc k
    end.
Proof.
  revert acc. induction l as [|x t IH]; intros acc; simpl; [reflexivity|].
  rewrite IH, find_app.
  destruct (find (fun r => rt_store_id r =? k) (rev t)); [reflexivity|].
  unfold js_get, js_set. simpl.
  destruct (rt_store_id x =? k); reflexivity.
Qed.

Lemma NoDup_map_inj {A B : Type} (f : A -> B) (l : list A) (x y : A) :
  NoDup (map f l) -> In x l -> In y l -> f x = f y -> x = y.
Proof.
  induction l as [|a t IH]; simpl; intros Hnd Hx Hy Hf; [contradiction|].
  inversion Hnd as [|? ? Ha Ht]; subst.
  destruct Hx as [<-|Hx], Hy as [<-|Hy]; trivial.
  - exfalso. apply Ha. rewrite Hf. now apply in_map.
  - exfalso. apply Ha. rewrite <- Hf. now apply in_map.
  - now apply IH.
Qed.

Lemma insert_by_name_in (name_le : text -> text -> bool)
      (r x : store_row) (l : list store_row) :
  In x (insert_by_name name_le r l) <-> x = r \/ In x l.
Proof.
  induction l as [|y t IH]; simpl.
  - intuition.
  - destruct (name_le (st_name r) (st_name y)); simpl.
    + intuition.
    + rewrite IH. intuition.
Qed.

Lemma insert_by_name_length (name_le : text -> text -> bool)
      (r : store_row) (l : list store_row) :
  List.length (insert_by_name name_le r l) = S (List.length l).
Proof.
  induction l as [|y t IH]; simpl; [reflexivity|].
  destruct (name_le (st_name r) (st_name y)); simpl; [reflexivity|].
  now rewrite IH.
Qed.

Lemma order_by_name_in (name_le : text -> text -> bool)
      (x : store_row) (l : list store_row) :
  In x (order_by_name name_le l) <-> In x l.
Proof.
  induction l as [|y t IH]; simpl; [tauto|].
  rewrite insert_by_name_in, IH. intuition.
Qed.

Lemma order_by_name_length (name_le : text -> text -> bool)
      (l : list store_row) :
  List.length (order_by_name name_le l) = List.length l.
Proof.
  induction l as [|y t IH]; simpl; [reflexivity|].
  now rewrite insert_by_name_length, IH.
Qed.

Lemma insert_by_name_perm (name_le : text -> text -> bool)
      (r : store_row) (l : list store_row) :
  Permutation (insert_by_name name_le r l) (r :: l).
Proof.
  induction l as [|y t IH]; simpl; [reflexivity|].
  destruct (name_le (st_name r) (st_name y)); [reflexivity|].
  rewrite IH. apply perm_swap.
Qed.

Lemma order_by_name_perm (name_le : text -> text -> bool)
      (l : list store_row) :
  Permutation (order_by_name name_le l) l.
Proof.
  induction l as [|y t IH]; simpl; [constructor|].
  rewrite insert_by_name_perm. now constructor.
Qed.

Lemma select_ratings_of_user_authenticated (d : db) (u v : uuid) :
  select_ratings_of_user (authenticated u) d v
  = filter (fun r => rt_user_id r =? v) (ratings d).
Proof.
  unfold select_ratings_of_user. apply filter_ext. intros r.
  rewrite ratings_select_using. reflexivity.
Qed.

(** X14: signed in as [u], [fetchStores] lists every store once, whatever the
    order on names, and, on a table that has its unique (user, store) index,
    a store's [user_rating] is [v] exactly when [u] has a rating row with
    value [v] for that store; it is undefined exactly when [u] has none. *)
Theorem fetchStores_user_rating
        (name_le : text -> text -> bool) (d : db) (u : uuid) :
  ratings_wf (ratings d) ->
  exists l,
    fetchStores name_le (authenticated u) d = Some l
    /\ Permutation (map swr_store l) (stores d)
    /\ (forall sw v,
          In sw l ->
          (user_rating sw = Some v
           <-> exists r, In r (ratings d) /\ rt_user_id r = u
                         /\ rt_store_id r = st_id (swr_store sw)
                         /\ rt_rating r = v)).
Proof.
  intros [_ Hkey]. unfold fetchStores. cbn [auth_uid].
  rewrite select_stores_authenticated, select_ratings_of_user_authenticated.
  eexists. split; [reflexivity|]. unfold storesWithRatings.
  split.
  - rewrite map_map. cbn [swr_store]. rewrite map_id, order_by_name_perm.
    now rewrite filter_all.
  - intros sw v Hin. apply in_map_iff in Hin. destruct Hin as [st [<- _]].
    simpl. unfold ratingsMap. rewrite ratingsMap_fold.
    change (js_get [] (st_id st)) with (@None Z).
    set (mine := filter (fun r => rt_user_id r =? u) (ratings d)).
    assert (Hmine : forall r, In r (rev mine)
                              <-> In r (ratings d) /\ rt_user_id r = u).
    { intros r. rewrite <- in_rev. unfold mine.
      rewrite filter_In, Z.eqb_eq. reflexivity. }
    destruct (find (fun r => rt_store_id r =? st_id st) (rev mine))
      as [r0|] eqn:Ef.
    + apply find_some in Ef. destruct Ef as [Hin0 Hs0].
      apply Z.eqb_eq in Hs0. apply Hmine in Hin0. destruct Hin0 as [Hin0 Hu0].
      split.
      * intros Hv. injection Hv as <-. exists r0. repeat split; assumption.
      * intros [r [Hr [Hu [Hs Hv]]]]. f_equal. rewrite <- Hv. f_equal.
        apply (NoDup_map_inj rating_key (ratings d)); trivial.
        unfold rating_key. congruence.
    + split; [discriminate|]. intros [r [Hr [Hu [Hs Hv]]]]. exfalso.
      assert (Hin : In r (rev mine)) by (apply Hmine; tauto).
      pose proof (find_none _ _ Ef r Hin) as Hf. simpl in Hf.
      apply Z.eqb_neq in Hf. congruence.
Qed.

Lemma fetchStores_user_rating_witness :
  ratings_wf (ratings db1)
  /\ exists l, fetchStores text_leb (authenticated 3) db1 = Some l
               /\ map user_rating l = [Some 4].
Proof.
  assert (H : ratings_wf (ratings db1)).
  { split; simpl; repeat constructor; simpl; tauto. }
  split; [exact H|].
  destruct (fetchStores_user_rating text_leb db1 3 H) as [l [Hl _]].
  exists l. split; [exact Hl|].
  vm_compute in Hl. injection Hl as <-. reflexivity.
Defined.

(** ** Stars *)

Lemma renderStars_cases (rating : Z) :
  rating <= 0 \/ rating = 1 \/ rating = 2 \/ rating = 3 \/ rating = 4
  \/ 5 <= rating.
Proof. lia. Qed.

(** X15: both [renderStars] always draw five stars and fill the first
    [rating] of them: none for a rating of 0 or less, all five for a rating of
    5 or more, whatever the other parameters.  Clicks do something only in
    the interactive call of [UserDashboard.renderStars] that is given a
    handler: the handler is then called with 1 to 5 from left to right, so
    that in the rating dialog a click sets [selectedRating] to the position
    of the star.  A call that is not interactive, or has no handler, and
    every star of [StoreOwnerDashboard.renderStars], reacts to no click.
    The pointer cursor is shown exactly by an interactive call, and the
    "Overall Rating" line of the owner's dashboard fills the same stars as
    that of the user's. *)
Theorem renderStars_shape (rating : Z) (interactive : bool)
        (onStarClick : option (Z -> Z)) :
  map filled (renderStars rating interactive onStarClick)
  = repeat true (Z.to_nat (Z.max 0 (Z.min 5 rating)))
    ++ repeat false (5 - Z.to_nat (Z.max 0 (Z.min 5 rating)))
  /\ map filled (StoreOwnerDashboard.renderStars rating)
     = map filled (renderStars rating interactive onStarClick)
  /\ map on_click (renderStars rating interactive onStarClick)
     = (if interactive
        then match onStarClick with
             | Some f => map (fun v => Some (f v)) [1; 2; 3; 4; 5]
             | None => repeat None 5
             end
        else repeat None 5)
  /\ map on_click (dialog_stars rating)
     = [Some 1; Some 2; Some 3; Some 4; Some 5]
  /\ map on_click (overall_stars (Some rating)) = repeat None 5
  /\ map on_click (StoreOwnerDashboard.renderStars rating) = repeat None 5
  /\ map pointer (renderStars rating interactive onStarClick)
     = repeat interactive 5
  /\ forall average_rating,
       map filled (StoreOwnerDashboard.overall_stars average_rating)
       = map filled (overall_stars average_rating).
Proof.
  split; [|split; [reflexivity|split; [|repeat split]]].
  - unfold renderStars. cbn [map filled].
    destruct (renderStars_cases rating) as [H | [-> | [-> | [-> | [-> | H]]]]];
      try reflexivity.
    + replace (Z.max 0 (Z.min 5 rating)) with 0 by lia.
      rewrite !(proj2 (Z.ltb_ge _ _)) by lia. reflexivity.
    + replace (Z.max 0 (Z.min 5 rating)) with 5 by lia.
      rewrite !(proj2 (Z.ltb_lt _ _)) by lia. reflexivity.
  - destruct interactive; [destruct onStarClick|]; reflexivity.
Qed.

(** X16: for an average between 0.0 and 5.0 the "Overall Rating" line fills
    between zero and five stars, and the number filled is within half a star
    of the average, a half going up; an average that is null fills none. *)
Theorem overall_stars_within_half (t : Z) :
  0 <= t <= 50 ->
  let k := Z.of_nat (List.length (filter filled (overall_stars (Some t)))) in
  0 <= k <= 5 /\ 10 * k - 5 <= t < 10 * k + 5
  /\ filter filled (overall_stars None) = [].
Proof.
  intros Ht. unfold overall_stars, Math_round_tenths.
  pose proof (Z.div_mod (t + 5) 10 ltac:(lia)) as Hdm.
  pose proof (Z.mod_pos_bound (t + 5) 10 ltac:(lia)) as Hm.
  set (q := (t + 5) / 10) in *.
  assert (Hq : 0 <= q <= 5) by lia.
  assert (Hk : Z.of_nat (List.length (filter filled (renderStars q false None)))
               = q).
  { assert (Hc : q = 0 \/ q = 1 \/ q = 2 \/ q = 3 \/ q = 4 \/ q = 5) by lia.
    clearbody q.
    destruct Hc as [-> | [-> | [-> | [-> | [-> | ->]]]]]; reflexivity. }
  cbv zeta. rewrite Hk. repeat split; lia.
Qed.

Lemma overall_stars_within_half_witness :
  0 <= 35 <= 50
  /\ List.length (filter filled (overall_stars (Some 35))) = 4%nat
  /\ 10 * Z.of_nat (List.length (filter filled (overall_stars (Some 35)))) - 5
     <= 35.
Proof.
  assert (H : 0 <= 35 <= 50) by lia.
  split; [exact H|]. split; [reflexivity|].
  exact (proj1 (proj1 (proj2 (overall_stars_within_half 35 H)))).
Defined.

(** ** A first rating *)

(** X17: a normal user who clicks one of the five stars for a store they
    neither own nor administer, and have not rated yet, gets the success
    toast; the table [ratings] gains exactly the submitted row, with its new
    id, the clicked value and both timestamps at the time of the request;
    every other table, [stores] with its aggregates included, stays as it
    was; and the directory loaded afterwards shows the clicked value as the
    user's rating of that store. *)
Theorem first_rating_stored
        (u g : uuid) (now : timestamptz) (d : db) (store : uuid)
        (shown v : Z) :
  has_role d (Some u) normal_user = true ->
  (forall st, In st (stores d) -> st_id st = store ->
              may_update_store d (authenticated u) st = false) ->
  existsb (fun st => st_id st =? store) (stores d) = true ->
  existsb (Z.eqb u) (auth_users d) = true ->
  existsb (same_user_store u store) (ratings d) = false ->
  ratings_pkey_free (ratings d) g = true ->
  In (Some v) (map on_click (dialog_stars shown)) ->
  let row := {| rt_id := g; rt_user_id := u; rt_store_id := store;
                rt_rating := v; rt_created_at := now; rt_updated_at := now |} in
  let d' := set_ratings d (ratings d ++ [row]) in
  submitRating (authenticated u) g now d (Some store) v
  = (Some toast_success, d')
  /\ forall name_le,
       exists l, fetchStores name_le (authenticated u) d' = Some l
                 /\ forall sw, In sw l -> st_id (swr_store sw) = store ->
                               user_rating sw = Some v.
Proof.
  intros Hrole Hmay Hstore Huser Hnew Hfree Hv row d'.
  assert (Hr : 1 <= v <= 5).
  { cbv in Hv.
    destruct Hv as [H | [H | [H | [H | [H | []]]]]]; injection H as <-; lia. }
  split.
  - unfold submitRating. cbn [auth_uid].
    replace (v =? 0) with false by (symmetry; apply Z.eqb_neq; lia).
    unfold upsert_rating. cbn [pl_rating pl_user_id pl_store_id].
    unfold to_integer.
    replace ((-2147483648 <=? v) && (v <=? 2147483647)) with true
      by (symmetry; apply andb_true_iff; split; apply Z.leb_le; lia).
    cbn [bind]. rewrite ratings_insert_check. cbn [new_rating rt_user_id pl_user_id].
    unfold may_write_rating. cbn [auth_uid sql_eq].
    rewrite Hrole, Z.eqb_refl. cbn [andb orb guard bind].
    unfold ratings_check. cbn [new_rating rt_rating pl_rating].
    replace ((1 <=? v) && (v <=? 5)) with true
      by (symmetry; apply andb_true_iff; split; apply Z.leb_le; lia).
    cbn [guard bind]. unfold arbiter. cbn [rt_id new_rating].
    unfold ratings_pkey_free in Hfree. apply negb_true_iff in Hfree.
    rewrite (find_none_existsb _ _ Hfree).
    unfold insert_rating_row, ratings_pkey_free, ratings_user_store_free,
      ratings_fkeys.
    cbn [rt_id rt_user_id rt_store_id pl_user_id pl_store_id new_rating].
    rewrite Hfree, Hnew, Huser, Hstore. cbn [negb andb guard bind].
    rewrite update_store_rating_foreign; [reflexivity|].
    intros st Hin Hid. cbn in Hid. apply Z.eqb_eq in Hid.
    apply (Hmay st Hin). now symmetry.
  - intros name_le. unfold fetchStores. cbn [auth_uid].
    eexists. split; [reflexivity|].
    intros sw Hin Hid. unfold storesWithRatings in Hin.
    rewrite select_ratings_of_user_authenticated in Hin.
    apply in_map_iff in Hin. destruct Hin as [st [<- _]].
    cbn [swr_store user_rating] in Hid |- *.
    unfold ratingsMap. rewrite ratingsMap_fold.
    subst d'. cbn [ratings set_ratings].
    rewrite filter_app. cbn [filter]. subst row. cbn [rt_user_id].
    rewrite Z.eqb_refl, rev_app_distr. cbn [rev app find rt_store_id].
    rewrite Hid, Z.eqb_refl. reflexivity.
Qed.

Lemma first_rating_stored_witness :
  submitRating (authenticated 3) 900 200 db0 (Some 10) 4
  = (Some toast_success, db1)
  /\ exists l, fetchStores text_leb (authenticated 3) db1 = Some l
               /\ forall sw, In sw l -> st_id (swr_store sw) = 10 ->
                             user_rating sw = Some 4.
Proof.
  assert (H : submitRating (authenticated 3) 900 200 db0 (Some 10) 4
              = (Some toast_success, db1)
              /\ forall name_le,
                   exists l, fetchStores name_le (authenticated 3) db1 = Some l
                             /\ forall sw, In sw l -> st_id (swr_store sw) = 10 ->
                                           user_rating sw = Some 4).
  { apply (first_rating_stored 3 900 200 db0 10 0 4); try reflexivity.
    - intros st [<-|[]] _. reflexivity.
    - simpl. tauto. }
  destruct H as [Hs Hf]. split; [exact Hs | exact (Hf text_leb)].
Defined.

(** ** What a submission can change *)

(** X20: with a new id for the proposed row, [submitRating] never changes or
    removes a rating row: the table afterwards is the table before, or the
    table before with the submitted row at its end; roles and users are
    untouched, and without the success toast the whole database is as it
    was. *)
Theorem submitRating_only_appends
        (s : session) (g : uuid) (now : timestamptz) (d : db)
        (selectedStore : option uuid) (v : Z) :
  ratings_pkey_free (ratings d) g = true ->
  user_roles (snd (submitRating s g now d selectedStore v)) = user_roles d
  /\ auth_users (snd (submitRating s g now d selectedStore v)) = auth_users d
  /\ (ratings (snd (submitRating s g now d selectedStore v)) = ratings d
      \/ exists u store,
           auth_uid s = Some u /\ selectedStore = Some store
           /\ ratings (snd (submitRating s g now d selectedStore v))
              = ratings d ++ [new_rating g now {| pl_user_id := u;
                                                  pl_store_id := store;
                                                  pl_rating := v |}])
  /\ (fst (submitRating s g now d selectedStore v) <> Some toast_success ->
      snd (submitRating s g now d selectedStore v) = d).
Proof.
  intros Hfree. unfold submitRating.
  destruct selectedStore as [store|]; [|repeat split; now left].
  destruct (auth_uid s) as [u|] eqn:Eu; [|repeat split; now left].
  destruct (v =? 0); [repeat split; now left|].
  destruct (upsert_rating s g now d _ None) as [d1|] eqn:E;
    [|repeat split; now left].
  cbn [fst snd]. unfold upsert_rating in E.
  destruct (to_integer _); cbn [bind] in E; [|discriminate].
  destruct (guard (rls_with_check _ _ _ _ _) _); cbn [bind] in E;
    [|discriminate].
  destruct (guard (ratings_check _) _); cbn [bind] in E; [|discriminate].
  unfold arbiter in E. cbn [rt_id new_rating] in E.
  unfold ratings_pkey_free in Hfree. apply negb_true_iff in Hfree.
  rewrite (find_none_existsb _ _ Hfree) in E.
  apply insert_rating_row_inv in E. destruct E as [_ [_ [_ E]]].
  destruct (update_store_rating_frame _ _ _ _ _ _ E) as [Hr [Hu Ha]].
  split; [exact Hu|]. split; [exact Ha|]. split.
  - right. exists u, store. repeat split. exact Hr.
  - intros Hne. now contradiction Hne.
Qed.

Lemma submitRating_only_appends_witness :
  ratings_pkey_free (ratings db1) 901 = true
  /\ ratings (snd (submitRating (authenticated 3) 901 201 db1 (Some 10) 5))
     = [rating900].
Proof.
  assert (H : ratings_pkey_free (ratings db1) 901 = true) by reflexivity.
  split; [exact H|].
  destruct (submitRating_only_appends (authenticated 3) 901 201 db1 (Some 10) 5 H)
    as [_ [_ [_ Hsame]]].
  rewrite Hsame; [reflexivity | discriminate].
Defined.

(** X21: the count request of the role bootstrap counts the rows the session
    may read: for a signed-in user who is not an administrator that is the
    number of that user's own role rows, whatever the table holds besides;
    only for an administrator it is the number of all rows. *)
Theorem count_user_roles_sees (d : db) (u : uuid) :
  (is_admin d (authenticated u) = false ->
   count_user_roles (authenticated u) d = count_roles_of d u)
  /\ (is_admin d (authenticated u) = true ->
      count_user_roles (authenticated u) d = COUNT (user_roles d)).
Proof.
  split; intros H.
  - now apply count_user_roles_own.
  - unfold count_user_roles, select_user_roles. f_equal.
    apply filter_all. intros r _.
    now rewrite user_roles_select_using, H, orb_true_r.
Qed.

(** ** The password rule *)

Lemma lookahead_sound (class : N -> bool) (s : js_string) :
  lookahead class s = true ->
  exists c, In c s /\ class c = true.
Proof.
  induction s as [|c t IH]; simpl; [discriminate|].
  destruct (class c) eqn:E; simpl.
  - intros _. exists c. split; [now left | exact E].
  - intros H. apply andb_true_iff in H. destruct H as [_ H].
    destruct (IH H) as [c' [Hin Hc]]. exists c'. split; [now right | exact Hc].
Qed.

Lemma lookahead_complete (class : N -> bool) (s : js_string) :
  (forall c, In c s -> is_line_terminator c = false) ->
  (exists c, In c s /\ class c = true) ->
  lookahead class s = true.
Proof.
  induction s as [|c t IH]; simpl; intros Hnl [c' [Hin Hc]]; [contradiction|].
  destruct (class c) eqn:E; [reflexivity|]. simpl.
  rewrite (Hnl c (or_introl eq_refl)). simpl.
  destruct Hin as [<-|Hin]; [congruence|].
  apply IH; [|eauto]. intros x Hx. apply Hnl. now right.
Qed.

Lemma is_upper_spec (c : N) : is_upper c = true <-> (65 <= c <= 90)%N.
Proof.
  unfold is_upper. rewrite andb_true_iff, !N.leb_le. tauto.
Qed.

Lemma is_special_spec (c : N) :
  is_special c = true <-> In c (js_of_ascii "!@#$%^&*").
Proof.
  unfold is_special. rewrite existsb_exists. split.
  - intros [x [Hin Hx]]. apply N.eqb_eq in Hx. now subst.
  - intros Hin. exists c. split; [exact Hin | apply N.eqb_refl].
Qed.

(** X22: a password the form accepts has 8 to 16 UTF-16 code units, among
    them an upper-case letter A to Z and one of the characters !@#$%^&*; a
    password without a line terminator (line feed, carriage return, U+2028,
    U+2029) that has all three is accepted. *)
Theorem passwordSchema_accepts (password : js_string) :
  (passwordSchema password = true ->
   (8 <= List.length password <= 16)%nat
   /\ (exists c, In c password /\ (65 <= c <= 90)%N)
   /\ (exists c, In c password /\ In c (js_of_ascii "!@#$%^&*")))
  /\ ((forall c, In c password -> ~ In c [10; 13; 8232; 8233]%N) ->
      (8 <= List.length password <= 16)%nat ->
      (exists c, In c password /\ (65 <= c <= 90)%N) ->
      (exists c, In c password /\ In c (js_of_ascii "!@#$%^&*")) ->
      passwordSchema password = true).
Proof.
  unfold passwordSchema. split.
  - intros H. apply andb_true_iff in H. destruct H as [Hlen Hre].
    apply andb_true_iff in Hlen. destruct Hlen as [Hmin Hmax].
    apply andb_true_iff in Hre. destruct Hre as [Hup Hsp].
    apply Nat.leb_le in Hmin, Hmax.
    split; [lia|]. split.
    + destruct (lookahead_sound _ _ Hup) as [c [Hin Hc]].
      exists c. split; [exact Hin | now apply is_upper_spec].
    + destruct (lookahead_sound _ _ Hsp) as [c [Hin Hc]].
      exists c. split; [exact Hin | now apply is_special_spec].
  - intros Hnl [Hmin Hmax] [cu [Hinu Hup]] [cs [Hins Hsp]].
    apply Nat.leb_le in Hmin, Hmax. rewrite Hmin, Hmax.
    assert (Hnl' : forall c, In c password -> is_line_terminator c = false).
    { intros c Hin. specialize (Hnl c Hin). unfold is_line_terminator.
      destruct (N.eqb_spec c 10) as [->|_]; [exfalso; apply Hnl; simpl; tauto|].
      destruct (N.eqb_spec c 13) as [->|_]; [exfalso; apply Hnl; simpl; tauto|].
      destruct (N.eqb_spec c 8232) as [->|_]; [exfalso; apply Hnl; simpl; tauto|].
      destruct (N.eqb_spec c 8233) as [->|_]; [exfalso; apply Hnl; simpl; tauto|].
      reflexivity. }
    rewrite (lookahead_complete is_upper _ Hnl'),
            (lookahead_complete is_special _ Hnl').
    + reflexivity.
    + exists cs. split; [exact Hins | now apply is_special_spec].
    + exists cu. split; [exact Hinu | now apply is_upper_spec].
Qed.

(** Letters and digits alone do not make an accepted password, and neither
    does an upper-case letter that comes after a line break or after U+2028
    only.  A letter outside ASCII is one code unit when it is in the basic
    plane ("Az!defg" with U+017C for the z has seven) and two when it is not
    ("Passw!" followed by U+1F600 has eight). *)
Example passwordSchema_examples :
  passwordSchema (js_of_ascii "Passw0rd!") = true
  /\ passwordSchema (js_of_ascii "Password1") = false
  /\ passwordSchema (js_of_ascii "short!A") = false
  /\ passwordSchema (js_of_ascii "!" ++ [10%N] ++ js_of_ascii "Abcdefgh") = false
  /\ passwordSchema (js_of_ascii "!" ++ [8232%N] ++ js_of_ascii "Abcdefgh") = false
  /\ passwordSchema ([65; 380; 33] ++ js_of_ascii "defg")%N = false
  /\ passwordSchema (js_of_ascii "Passw!" ++ [55357; 56832])%N = true.
Proof. repeat split. Qed.

(** ** The properties above at work on the small database *)


Lemma fetchRatings_newest_first_witness :
  filter (fun x => st_user_id x =? 2) (stores db1) = [store10]
  /\ exists l, fetchRatings (authenticated 2) db1 = Some l /\ sorted_desc l
               /\ List.length l = 1%nat.
Proof.
  assert (H : filter (fun x => st_user_id x =? 2) (stores db1) = [store10])
    by reflexivity.
  split; [exact H|].
  destruct (proj1 (fetchRatings_newest_first db1 2) store10 H)
    as [l [Hl [Hs [_ Hn]]]].
  exists l. repeat split; trivial.
  apply Permutation_length in Hn. exact Hn.
Defined.

Lemma count_user_roles_sees_witness :
  is_admin db0 (authenticated 4) = false
  /\ count_user_roles (authenticated 4) db0 = 0
  /\ is_admin db0 (authenticated 1) = true
  /\ count_user_roles (authenticated 1) db0 = 3.
Proof.
  assert (H4 : is_admin db0 (authenticated 4) = false) by reflexivity.
  assert (H1 : is_admin db0 (authenticated 1) = true) by reflexivity.
  split; [exact H4|]. split.
  - now rewrite (proj1 (count_user_roles_sees db0 4) H4).
  - split; [exact H1|]. now rewrite (proj2 (count_user_roles_sees db0 1) H1).
Defined.

Lemma passwordSchema_accepts_witness :
  passwordSchema (js_of_ascii "Passw0rd!") = true
  /\ exists c, In c (js_of_ascii "Passw0rd!")
               /\ In c (js_of_ascii "!@#$%^&*").
Proof.
  assert (H : passwordSchema (js_of_ascii "Passw0rd!") = true) by reflexivity.
  split; [exact H|].
  exact (proj2 (proj2 (proj1 (passwordSchema_accepts (js_of_ascii "Passw0rd!")) H))).
Defined.
